(** * Conversation engine and planning tool of gemini-cli: a shallow embedding

    The development follows [packages/core/src/core/geminiChat.ts]
    (history curation, history recording, the streaming and non-streaming
    send paths, the Flash fallback) and
    [packages/core/src/tools/planning-tool.ts] (the planning tool's
    [execute]).  JavaScript objects are records with optional fields,
    arrays are lists, exceptions are an explicit result type, and the
    loops of the source are recursive functions over the part of the
    array that is still to be visited. *)

From Stdlib Require Import Ascii String.
From stdpp Require Import base option list strings gmap.

(** ** Content model ([Content] and [Part] of the GenAI SDK) *)

Record FunctionCall := { fc_name : string; fc_args : string }.
Record FunctionResponse := { fr_name : string; fr_response : string }.

(** A [Part] is an object whose keys are all optional.  A key is present
    exactly when its field is [Some]; a key explicitly bound to
    [undefined] is not represented. *)
Record Part := {
  text : option string;
  thought : option bool;
  functionCall : option FunctionCall;
  functionResponse : option FunctionResponse
}.

(** [Content]: both [role] and [parts] are optional in the SDK type. *)
Record Content := {
  role : option string;
  parts : option (list Part)
}.

Definition key_count {A} (o : option A) : nat :=
  match o with Some _ => 1 | None => 0 end.

(** [Object.keys(part).length] *)
Definition Object_keys_length (p : Part) : nat :=
  key_count (text p) + key_count (thought p)
  + key_count (functionCall p) + key_count (functionResponse p).

(** [part.thought] used as a condition: [undefined] and [false] are falsy. *)
Definition thought_truthy (p : Part) : bool :=
  match thought p with Some true => true | _ => false end.

(** [part.text !== undefined && part.text === ''] *)
Definition text_is_empty_string (p : Part) : bool :=
  match text p with Some s => String.eqb s "" | None => false end.

(** [content.role === r] *)
Definition role_is (c : Content) (r : string) : bool :=
  match role c with Some s => String.eqb s r | None => false end.

(** The [for] loop of [isValidContent], with its two early returns. *)
Fixpoint isValidContent_parts (ps : list Part) : bool :=
  match ps with
  | [] => true
  | part :: rest =>
      if Nat.eqb (Object_keys_length part) 0 then false
      else if negb (thought_truthy part) && text_is_empty_string part then false
      else isValidContent_parts rest
  end.

Definition isValidContent (content : Content) : bool :=
  match parts content with
  | None => false
  | Some ps =>
      if Nat.eqb (length ps) 0 then false else isValidContent_parts ps
  end.

(** ** Exceptions *)

(** What a [throw] can carry: an [Error] (or the [EmptyStreamError]
    subclass) with its message, or a value that is not an [Error]. *)
Inductive ErrorClass := PlainError | EmptyStreamError.

Inductive Thrown :=
| JsError (cls : ErrorClass) (message : string)
| NonError (v : string).

Inductive Result (A : Type) :=
| Ok (a : A)
| Throw (e : Thrown).
Arguments Ok {A} a.
Arguments Throw {A} e.

(** [validateHistory]: the first turn whose role is neither ['user'] nor
    ['model'] raises. *)
Fixpoint validateHistory (history : list Content) : Result unit :=
  match history with
  | [] => Ok tt
  | content :: rest =>
      if negb (role_is content "user") && negb (role_is content "model") then
        Throw (JsError PlainError
                 ("Role must be user or model, but got "
                  +:+ default "undefined" (role content) +:+ "."))
      else validateHistory rest
  end.

(** ** Curated history *)

(** The inner [while] of [extractCuratedHistory]: it gathers the model
    turns at the front of what is left, remembers whether all of them
    were valid, and hands back what follows them. *)
Fixpoint modelRun (todo modelOutput : list Content) (isValid : bool)
  : list Content * bool * list Content :=
  match todo with
  | c :: rest =>
      if role_is c "model" then
        modelRun rest (modelOutput ++ [c])
                 (if isValid && negb (isValidContent c) then false else isValid)
      else (modelOutput, isValid, todo)
  | [] => (modelOutput, isValid, [])
  end.

(** The outer [while (i < length)].  [todo] is the history from index [i]
    on.  A turn whose role is neither ['user'] nor ['model'] enters the
    [else] branch, the inner loop does not move, and [i] is never
    advanced: the source loops for ever.  [fuel] bounds the number of
    iterations, [None] means it ran out. *)
Fixpoint extractCuratedHistory_loop (fuel : nat)
    (todo curatedHistory : list Content) : option (list Content) :=
  match fuel with
  | 0 => None
  | S fuel' =>
      match todo with
      | [] => Some curatedHistory
      | c :: rest =>
          if role_is c "user" then
            extractCuratedHistory_loop fuel' rest (curatedHistory ++ [c])
          else
            let '(modelOutput, isValid, todo') := modelRun todo [] true in
            extractCuratedHistory_loop fuel' todo'
              (if isValid then curatedHistory ++ modelOutput
               else curatedHistory)
      end
  end.

(** One iteration per turn is the most a terminating run needs. *)
Definition extractCuratedHistory (comprehensiveHistory : list Content)
  : option (list Content) :=
  extractCuratedHistory_loop (S (length comprehensiveHistory))
                             comprehensiveHistory [].

(** ** The chat session *)

(** Modelled from the spec: [Config] ([config/config.ts] is not among the
    sources).  The session's model id, the fallback-mode and quota-error
    flags and the auth type of the content generator are plain fields
    read by [getModel], [getQuotaErrorOccurred] and
    [getContentGeneratorConfig()?.authType] and written by [setModel] and
    [setFallbackMode]. *)
Record Config := {
  model : string;
  fallbackMode : bool;
  quotaErrorOccurred : bool;
  cg_authType : option string
}.

Definition setModel (m : string) (cfg : Config) : Config :=
  {| model := m; fallbackMode := fallbackMode cfg;
     quotaErrorOccurred := quotaErrorOccurred cfg;
     cg_authType := cg_authType cfg |}.

Definition setFallbackMode (b : bool) (cfg : Config) : Config :=
  {| model := model cfg; fallbackMode := b;
     quotaErrorOccurred := quotaErrorOccurred cfg;
     cg_authType := cg_authType cfg |}.

Record GeminiChat := {
  config : Config;
  history : list Content
}.

(** The constructor: [validateHistory(history)] runs before the object
    exists, so a throw leaves no session behind. *)
Definition GeminiChat_new (cfg : Config) (history0 : list Content)
  : Result GeminiChat :=
  match validateHistory history0 with
  | Ok _ => Ok {| config := cfg; history := history0 |}
  | Throw e => Throw e
  end.

(** The three direct mutators.  They live in the same result type as the
    constructor so that "does not throw" is a statement about them. *)
Definition clearHistory (chat : GeminiChat) : Result GeminiChat :=
  Ok {| config := config chat; history := [] |}.

Definition addHistory (content : Content) (chat : GeminiChat)
  : Result GeminiChat :=
  Ok {| config := config chat; history := history chat ++ [content] |}.

Definition setHistory (history' : list Content) (chat : GeminiChat)
  : Result GeminiChat :=
  Ok {| config := config chat; history := history' |}.

(** ** Recording an exchange: [recordHistory] *)

(** [typeof content.parts[0].text === 'string' && content.parts[0].text !== ''] *)
Definition first_text_nonempty (p : Part) : bool :=
  match text p with Some s => negb (String.eqb s "") | None => false end.

(** [isTextContent]; [None] is the [undefined] argument. *)
Definition isTextContent (content : option Content) : bool :=
  match content with
  | None => false
  | Some c =>
      role_is c "model" &&
      match parts c with
      | Some (p0 :: _) => first_text_nonempty p0
      | _ => false
      end
  end.

(** [isThoughtContent] *)
Definition isThoughtContent (content : option Content) : bool :=
  match content with
  | None => false
  | Some c =>
      role_is c "model" &&
      match parts c with
      | Some (p0 :: _) => match thought p0 with Some true => true | _ => false end
      | _ => false
      end
  end.

(** [x || ''] on an optional string. *)
Definition or_empty (o : option string) : string :=
  match o with Some s => s | None => "" end.

(** The body of both merge branches:
    [last.parts[0].text += content.parts[0].text || ''] followed by
    [last.parts.push(...content.parts.slice(1))].  It is only reached
    when [isTextContent] holds of both turns; on other shapes the
    function leaves [last] alone. *)
Definition mergeTextInto (last content : Content) : Content :=
  match parts last, parts content with
  | Some (l0 :: lrest), Some (c0 :: crest) =>
      match text l0 with
      | Some lt =>
          {| role := role last;
             parts := Some ({| text := Some (lt +:+ or_empty (text c0));
                               thought := thought l0;
                               functionCall := functionCall l0;
                               functionResponse := functionResponse l0 |}
                            :: lrest ++ crest) |}
      | None => last
      end
  | _, _ => last
  end.

(** [arr[arr.length - 1]] and the array without its last element. *)
Definition last_entry {A} (l : list A) : option A := last l.
Definition but_last {A} (l : list A) : list A := take (length l - 1) l.

(** The loop "Consolidate adjacent model roles in outputContents".  The
    turns of [outputContents] are taken to be distinct objects, so the
    in-place update of [lastContent] is the replacement of the last
    element of [consolidated]. *)
Fixpoint consolidate (outputContents consolidated : list Content)
  : list Content :=
  match outputContents with
  | [] => consolidated
  | content :: rest =>
      if isThoughtContent (Some content) then consolidate rest consolidated
      else
        match last_entry consolidated with
        | Some lastContent =>
            if isTextContent (Some lastContent) && isTextContent (Some content)
            then consolidate rest
                   (but_last consolidated ++ [mergeTextInto lastContent content])
            else consolidate rest (consolidated ++ [content])
        | None => consolidate rest (consolidated ++ [content])
        end
  end.

Definition emptyModelContent : Content :=
  {| role := Some "model"; parts := Some [] |}.

Definition has_role (c : Content) : bool :=
  match role c with Some _ => true | None => false end.

(** [afc && afc.length > 0] *)
Definition afc_present (afc : option (list Content)) : bool :=
  match afc with Some (_ :: _) => true | _ => false end.

Section RecordHistory.

(** [isFunctionResponse] comes from [utils/messageInspectors.ts], which
    is not among the sources. *)
Variable isFunctionResponse : Content -> bool.

(** The first [if / else if / else] of [recordHistory]. *)
Definition outputContents_of (userInput : Content)
    (modelOutput : list Content) : list Content :=
  let nonThoughtModelOutput :=
    List.filter (fun content => negb (isThoughtContent (Some content)))
                modelOutput in
  if negb (Nat.eqb (length nonThoughtModelOutput) 0)
     && forallb has_role nonThoughtModelOutput
  then nonThoughtModelOutput
  else if Nat.eqb (length nonThoughtModelOutput) 0
          && negb (Nat.eqb (length modelOutput) 0)
  then []
  else if negb (isFunctionResponse userInput) then [emptyModelContent]
  else [].

(** [recordHistory] as a function from the history before the call to
    the history after it.  [None] only when curating the side-channel
    history does not terminate. *)
Definition recordHistory (history0 : list Content) (userInput : Content)
    (modelOutput : list Content)
    (automaticFunctionCallingHistory : option (list Content))
  : option (list Content) :=
  let outputContents := outputContents_of userInput modelOutput in
  history1 ←
    (if afc_present automaticFunctionCallingHistory then
       curated ← extractCuratedHistory
                    (default [] automaticFunctionCallingHistory);
       Some (history0 ++ curated)
     else Some (history0 ++ [userInput]));
  let consolidatedOutputContents := consolidate outputContents [] in
  match consolidatedOutputContents with
  | [] => Some history1
  | first :: others =>
      let lastHistoryEntry := last_entry history1 in
      let canMergeWithLastHistory :=
        negb (afc_present automaticFunctionCallingHistory) in
      match lastHistoryEntry with
      | Some lastEntry =>
          if canMergeWithLastHistory
             && isTextContent (Some lastEntry)
             && isTextContent (Some first)
          then Some (but_last history1 ++ [mergeTextInto lastEntry first]
                     ++ others)
          else Some (history1 ++ consolidatedOutputContents)
      | None => Some (history1 ++ consolidatedOutputContents)
      end
  end.

End RecordHistory.

(** ** Error classification *)

(** [hay.includes(needle)]: some suffix of [hay] starts with [needle].
    The needles used here are ASCII, for which a match on the bytes of
    the message and a match on its UTF-16 code units coincide. *)
Fixpoint includes (hay needle : string) : bool :=
  String.prefix needle hay
  || match hay with
     | EmptyString => false
     | String _ rest => includes rest needle
     end.

(** [\d] *)
Definition isDigit (c : ascii) : bool :=
  (48 <=? nat_of_ascii c) && (nat_of_ascii c <=? 57).

(** The pattern [/5\d{2}/] anchored at the front of [s]. *)
Definition starts_5dd (s : string) : bool :=
  match s with
  | String a (String b (String c _)) =>
      Ascii.eqb a "5" && isDigit b && isDigit c
  | _ => false
  end.

(** [s.match(/5\d{2}/)] used as a condition. *)
Fixpoint matches_5dd (s : string) : bool :=
  starts_5dd s
  || match s with
     | EmptyString => false
     | String _ rest => matches_5dd rest
     end.

Definition isSchemaDepthError (errorMessage : string) : bool :=
  includes errorMessage "maximum schema depth exceeded".

Definition isInvalidArgumentError (errorMessage : string) : bool :=
  includes errorMessage "Request contains an invalid argument".

(** The [shouldRetry] callback that [sendMessage] hands to
    [retryWithBackoff].  [error.message] as a condition is false on the
    empty string. *)
Definition shouldRetry (error : Thrown) : bool :=
  match error with
  | JsError _ message =>
      if negb (String.eqb message "") then
        if isSchemaDepthError message then false
        else if includes message "429" then true
        else if matches_5dd message then true
        else false
      else false
  | NonError _ => false
  end.

(** ** Flash fallback *)

(** What the fallback handler resolves to: [boolean | string | null]. *)
Inductive HandlerAnswer :=
| AnsBool (b : bool)
| AnsString (s : string)
| AnsNull.

(** The handler is code of the CLI package: it sees the two model ids and
    the error, may change the configuration, and may throw. *)
Definition FallbackHandler : Type :=
  string -> string -> option Thrown -> Config -> Result HandlerAnswer * Config.

(** [accepted !== false && accepted !== null] *)
Definition accepted_answer (a : HandlerAnswer) : bool :=
  match a with
  | AnsBool false => false
  | AnsNull => false
  | _ => true
  end.

Section FlashFallback.

(** [AuthType.LOGIN_WITH_GOOGLE] and [DEFAULT_GEMINI_FLASH_MODEL] are
    constants of [contentGenerator.ts] and [config/models.ts], which are
    not among the sources. *)
Variable LOGIN_WITH_GOOGLE : string.
Variable DEFAULT_GEMINI_FLASH_MODEL : string.

(** [this.config.flashFallbackHandler], [None] when it is not a function. *)
Variable flashFallbackHandler : option FallbackHandler.

Definition authType_is_login (authType : option string) : bool :=
  match authType with
  | Some a => String.eqb a LOGIN_WITH_GOOGLE
  | None => false
  end.

(** [handleFlashFallback]: the model id to continue with, or [None] for
    [null], and the configuration it leaves. *)
Definition handleFlashFallback (authType : option string)
    (error : option Thrown) (cfg : Config) : option string * Config :=
  if negb (authType_is_login authType) then (None, cfg)
  else
    let currentModel := model cfg in
    let fallbackModel := DEFAULT_GEMINI_FLASH_MODEL in
    if String.eqb currentModel fallbackModel then (None, cfg)
    else
      match flashFallbackHandler with
      | Some fallbackHandler =>
          match fallbackHandler currentModel fallbackModel error cfg with
          | (Ok accepted, cfg') =>
              if accepted_answer accepted then
                (Some fallbackModel,
                 setFallbackMode true (setModel fallbackModel cfg'))
              else if String.eqb (model cfg') fallbackModel then (None, cfg')
              else (None, cfg')
          | (Throw _, cfg') => (None, cfg')
          end
      | None => (None, cfg)
      end.

End FlashFallback.

(** ** Responses *)

Record Candidate := { content : option Content }.

Record GenerateContentResponse := {
  candidates : option (list Candidate);
  automaticFunctionCallingHistory : option (list Content)
}.

(** [response.candidates?.[0]?.content] *)
Definition first_candidate_content (response : GenerateContentResponse)
  : option Content :=
  match candidates response with
  | Some (c0 :: _) => content c0
  | _ => None
  end.

Definition isValidResponse (response : GenerateContentResponse) : bool :=
  match candidates response with
  | None => false
  | Some [] => false
  | Some (c0 :: _) =>
      match content c0 with
      | None => false
      | Some c => isValidContent c
      end
  end.

(** [createUserContent(message)] belongs to the GenAI SDK, a library
    outside the repository.  The message is taken as an array of parts,
    a string element standing for its text part.  [_isPart] asks for one
    of the content keys; of the keys a [Part] has here these are [text],
    [functionCall] and [functionResponse], so a part with no key, or
    with [thought] alone, is not a part for it. *)
Definition isPart (p : Part) : bool :=
  match text p, functionCall p, functionResponse p with
  | None, None, None => false
  | _, _, _ => true
  end.

(** The [for (const part of partOrString)] loop of [_toParts]: the first
    element that is not a part raises. *)
Fixpoint toParts_elements (todo parts : list Part) : Result (list Part) :=
  match todo with
  | [] => Ok parts
  | part :: rest =>
      if isPart part then toParts_elements rest (parts ++ [part])
      else Throw (JsError PlainError
                    "element in PartUnion must be a Part object or string")
  end.

(** [_toParts] on an array: an empty array raises. *)
Definition toParts (partOrString : list Part) : Result (list Part) :=
  if Nat.eqb (length partOrString) 0 then
    Throw (JsError PlainError "partOrString cannot be an empty array")
  else toParts_elements partOrString [].

Definition createUserContent (message : list Part) : Result Content :=
  match toParts message with
  | Ok parts => Ok {| role := Some "user"; parts := Some parts |}
  | Throw e => Throw e
  end.

(** ** The non-streaming path *)

(** What a run of the retry helper did: its result, how many requests it
    issued, the delays it slept and the configuration it left. *)
Record RetryRun (R : Type) := {
  rr_result : Result R;
  rr_calls : nat;
  rr_delays : list nat;
  rr_config : Config
}.
Arguments rr_result {R} _.
Arguments rr_calls {R} _.
Arguments rr_delays {R} _.
Arguments rr_config {R} _.

Section RetryWithBackoff.

Context {R : Type}.
Variable LOGIN_WITH_GOOGLE : string.
(** The attempt cap and the first delay are options of the helper. *)
Variable maxAttempts : nat.
Variable initialDelayMs : nat.
Variable shouldRetry_cb : Thrown -> bool.
Variable onPersistent429 :
  option string -> option Thrown -> Config -> option string * Config.
Variable authType : option string.
(** The request: its outcome may depend on how many requests came
    before and on the configuration at the time of the call. *)
Variable apiCall : nat -> Config -> Result R.

(** "still 429": the message carries the substring ["429"]. *)
Definition is429 (e : Thrown) : bool :=
  match e with
  | JsError _ message => includes message "429"
  | NonError _ => false
  end.

(** Modelled from the spec: [retryWithBackoff] ([utils/retry.ts] is not
    among the sources).  The request is attempted; a failure that the
    classifier accepts is retried after a delay that doubles each time,
    while attempts remain under the cap; a failure the classifier
    rejects propagates at once.  When the budget is exhausted on an
    error that is still a 429 and the session uses the interactive
    login, the fallback callback is invoked, and if it accepts the
    request is retried once more. *)
Fixpoint retry_attempts (retriesLeft n delay : nat) (cfg : Config)
    (delays : list nat) : RetryRun R :=
  match apiCall n cfg with
  | Ok r =>
      {| rr_result := Ok r; rr_calls := S n;
         rr_delays := delays; rr_config := cfg |}
  | Throw e =>
      if shouldRetry_cb e then
        match retriesLeft with
        | S k => retry_attempts k (S n) (2 * delay) cfg (delays ++ [delay])
        | 0 =>
            if is429 e && authType_is_login LOGIN_WITH_GOOGLE authType then
              match onPersistent429 authType (Some e) cfg with
              | (Some _, cfg') =>
                  {| rr_result := apiCall (S n) cfg'; rr_calls := S (S n);
                     rr_delays := delays; rr_config := cfg' |}
              | (None, cfg') =>
                  {| rr_result := Throw e; rr_calls := S n;
                     rr_delays := delays; rr_config := cfg' |}
              end
            else
              {| rr_result := Throw e; rr_calls := S n;
                 rr_delays := delays; rr_config := cfg |}
        end
      else
        {| rr_result := Throw e; rr_calls := S n;
           rr_delays := delays; rr_config := cfg |}
  end.

Definition retryWithBackoff (cfg : Config) : RetryRun R :=
  retry_attempts (maxAttempts - 1) 0 initialDelayMs cfg [].

End RetryWithBackoff.

Section SendMessage.

Variable LOGIN_WITH_GOOGLE : string.
Variable DEFAULT_GEMINI_FLASH_MODEL : string.
Variable flashFallbackHandler : option FallbackHandler.
Variable isFunctionResponse : Content -> bool.
Variable maxAttempts : nat.
Variable initialDelayMs : nat.

(** [contentGenerator.generateContent]: the outcome of the [n]-th
    request for a model id and request contents. *)
Variable generateContent :
  nat -> string -> list Content -> Result GenerateContentResponse.

Definition quota_error_message : string :=
  "Please submit a new query to continue with the Flash model.".

(** The [apiCall] closure of [sendMessage]. *)
Definition sendMessage_apiCall (requestContents : list Content)
    (n : nat) (cfg : Config) : Result GenerateContentResponse :=
  let modelToUse :=
    if String.eqb (model cfg) "" then DEFAULT_GEMINI_FLASH_MODEL
    else model cfg in
  if quotaErrorOccurred cfg
     && String.eqb modelToUse DEFAULT_GEMINI_FLASH_MODEL
  then Throw (JsError PlainError quota_error_message)
  else generateContent n modelToUse requestContents.

(** The [retryWithBackoff] call of [sendMessage], with the callbacks it
    is given there. *)
Definition sendMessage_request (requestContents : list Content)
    (cfg : Config) : RetryRun GenerateContentResponse :=
  retryWithBackoff LOGIN_WITH_GOOGLE maxAttempts initialDelayMs
    shouldRetry
    (handleFlashFallback LOGIN_WITH_GOOGLE DEFAULT_GEMINI_FLASH_MODEL
                         flashFallbackHandler)
    (cg_authType cfg)
    (sendMessage_apiCall requestContents)
    cfg.

(** [sendMessage]: [None] when curating a history does not terminate.
    A throw of [createUserContent] leaves the call before anything else
    has happened. *)
Definition sendMessage (message : list Part) (chat : GeminiChat)
  : option (Result GenerateContentResponse * GeminiChat) :=
  match createUserContent message with
  | Throw e => Some (Throw e, chat)
  | Ok userContent =>
      curated ← extractCuratedHistory (history chat);
      let requestContents := curated ++ [userContent] in
      let run := sendMessage_request requestContents (config chat) in
      match rr_result run with
      | Throw e =>
          Some (Throw e,
                {| config := rr_config run; history := history chat |})
      | Ok response =>
          let outputContent := first_candidate_content response in
          let index := length curated in
          let afc :=
            match automaticFunctionCallingHistory response with
            | Some full => drop index full
            | None => []
            end in
          let modelOutput :=
            match outputContent with Some c => [c] | None => [] end in
          history' ← recordHistory isFunctionResponse (history chat)
                       userContent modelOutput (Some afc);
          Some (Ok response,
                {| config := rr_config run; history := history' |})
      end
  end.

End SendMessage.

(** ** The streaming path *)

#[global] Instance FunctionCall_eq_dec : EqDecision FunctionCall.
Proof. solve_decision. Defined.
#[global] Instance FunctionResponse_eq_dec : EqDecision FunctionResponse.
Proof. solve_decision. Defined.
#[global] Instance Part_eq_dec : EqDecision Part.
Proof. solve_decision. Defined.
#[global] Instance Content_eq_dec : EqDecision Content.
Proof. solve_decision. Defined.

(** What [generateContentStream] resolves to: chunks that arrive one by
    one, after which the stream either ends or breaks with an error. *)
Record StreamData := {
  chunks : list GenerateContentResponse;
  breaks_with : option Thrown
}.

(** [processStreamResponse] is an [async function*]: calling it runs none
    of its body and returns the generator object.  The body runs when a
    consumer iterates the generator, which is [drain] below. *)
Inductive StreamGenerator :=
| ProcessStreamResponse (streamResponse : StreamData).

(** The [for await] loop of [processStreamResponse]: the parts gathered,
    the invalid flag and the chunks yielded so far. *)
Fixpoint processStream_chunks (todo : list GenerateContentResponse)
    (modelResponseParts : list Part) (isStreamInvalid : bool)
    (yielded : list GenerateContentResponse)
  : list Part * bool * list GenerateContentResponse :=
  match todo with
  | [] => (modelResponseParts, isStreamInvalid, yielded)
  | chunk :: rest =>
      if isValidResponse chunk then
        match first_candidate_content chunk with
        | Some {| parts := Some ps |} =>
            processStream_chunks rest (modelResponseParts ++ ps)
                                 isStreamInvalid (yielded ++ [chunk])
        | _ =>
            processStream_chunks rest modelResponseParts
                                 isStreamInvalid (yielded ++ [chunk])
        end
      else
        processStream_chunks rest modelResponseParts true (yielded ++ [chunk])
  end.

Record DrainRun := {
  dr_yielded : list GenerateContentResponse;
  dr_completion : Result unit;
  dr_chat : GeminiChat
}.

Definition empty_stream_error : Thrown :=
  JsError EmptyStreamError "Model stream had invalid chunks".

(** A consumer running the generator to its end. *)
Definition drain (g : StreamGenerator) (chat : GeminiChat) : DrainRun :=
  match g with
  | ProcessStreamResponse streamResponse =>
      let '(modelResponseParts, isStreamInvalid, yielded) :=
        processStream_chunks (chunks streamResponse) [] false [] in
      match breaks_with streamResponse with
      | Some e =>
          {| dr_yielded := yielded; dr_completion := Throw e; dr_chat := chat |}
      | None =>
          if isStreamInvalid then
            {| dr_yielded := yielded; dr_completion := Throw empty_stream_error;
               dr_chat := chat |}
          else
            {| dr_yielded := yielded; dr_completion := Ok tt;
               dr_chat :=
                 {| config := config chat;
                    history := history chat
                               ++ [{| role := Some "model";
                                      parts := Some modelResponseParts |}] |} |}
      end
  end.

(** What a call of [sendMessageStream] did: its result, the number of
    attempts it started, the delays it slept and the session it left. *)
Record StreamSend := {
  ss_result : Result StreamGenerator;
  ss_calls : nat;
  ss_delays : list nat;
  ss_chat : GeminiChat
}.

Section SendMessageStream.

Variable DEFAULT_GEMINI_FLASH_MODEL : string.

(** [contentGenerator.generateContentStream], as [generateContent]
    above. *)
Variable generateContentStream :
  nat -> string -> list Content -> Result StreamData.

Definition MAX_RETRIES : nat := 2.

Definition makeApiCallAndYieldStream (requestContents : list Content)
    (n : nat) (cfg : Config) : Result StreamGenerator :=
  let modelToUse := model cfg in
  if quotaErrorOccurred cfg
     && String.eqb modelToUse DEFAULT_GEMINI_FLASH_MODEL
  then Throw (JsError PlainError
                "Please submit a new query to continue with the Flash model.")
  else
    match generateContentStream n modelToUse requestContents with
    | Ok streamResponse => Ok (ProcessStreamResponse streamResponse)
    | Throw e => Throw e
    end.

(** [error instanceof Error ? error.message : ''] *)
Definition errorMessage_of (error : Thrown) : string :=
  match error with JsError _ message => message | NonError _ => "" end.

Definition isEmptyStreamError (error : Thrown) : bool :=
  match error with JsError EmptyStreamError _ => true | _ => false end.

(** The [for (attempt = 0; attempt <= MAX_RETRIES; attempt++)] loop;
    [remaining] counts the iterations the loop condition still allows.
    The result is the generator returned from inside the loop, or the
    value of [lastError] when the loop is left. *)
Fixpoint sendMessageStream_attempts (remaining attempt : nat)
    (requestContents : list Content) (cfg : Config)
    (lastError : Thrown) (delays : list nat)
  : Result StreamGenerator * nat * list nat :=
  match remaining with
  | 0 => (Throw lastError, attempt, delays)
  | S remaining' =>
      match makeApiCallAndYieldStream requestContents attempt cfg with
      | Ok stream => (Ok stream, S attempt, delays)
      | Throw error =>
          let errorMessage := errorMessage_of error in
          let isRetryableNetworkError :=
            includes errorMessage "429" || matches_5dd errorMessage in
          let isContentError := isEmptyStreamError error in
          if (isRetryableNetworkError || isContentError)
             && (attempt <? MAX_RETRIES)
          then sendMessageStream_attempts remaining' (S attempt)
                 requestContents cfg error
                 (delays ++ [500 * (attempt + 1)])
          else (Throw error, S attempt, delays)
      end
  end.

(** [sendMessageStream].  The test
    [this.history[this.history.length - 1] === userContent] compares
    object identities; between the push of [userContent] and the test
    nothing else touches the array, so comparing the values agrees with
    it.  [None] when curating the history does not terminate.  A throw
    of [createUserContent] leaves the call before the history is
    touched and before any attempt. *)
Definition sendMessageStream (message : list Part) (chat : GeminiChat)
  : option StreamSend :=
  match createUserContent message with
  | Throw e =>
      Some {| ss_result := Throw e; ss_calls := 0; ss_delays := [];
              ss_chat := chat |}
  | Ok userContent =>
      let history1 := history chat ++ [userContent] in
      requestContents ← extractCuratedHistory history1;
      let '(result, calls, delays) :=
        sendMessageStream_attempts (MAX_RETRIES + 1) 0 requestContents
          (config chat)
          (JsError PlainError "Request failed after all retries.") [] in
      match result with
      | Ok stream =>
          Some {| ss_result := Ok stream; ss_calls := calls;
                  ss_delays := delays;
                  ss_chat :=
                    {| config := config chat; history := history1 |} |}
      | Throw lastError =>
          let history2 :=
            if bool_decide (last_entry history1 = Some userContent)
            then but_last history1 else history1 in
          Some {| ss_result := Throw lastError; ss_calls := calls;
                  ss_delays := delays;
                  ss_chat :=
                    {| config := config chat; history := history2 |} |}
      end
  end.

End SendMessageStream.

(** ** The planning tool *)

Module PlanningTool.

Definition planningToolName : string := "planning_tool".

(** Modelled from the spec: the sub-agent's closed set of termination
    reasons ([core/subagent.ts] is not among the sources). *)
Inductive SubagentTerminateMode := GOAL | MAX_TURNS | TIMEOUT | ERROR | ABORTED.

Record OutputObject := {
  terminate_reason : SubagentTerminateMode;
  emitted_vars : gmap string string
}.

(** What creating and running the planner sub-agent comes to, seen from
    [createPlan]: either step may throw, or the run leaves an output. *)
Inductive PlannerRun :=
| CreateThrows (e : Thrown)
| RunThrows (e : Thrown)
| Completes (output : OutputObject).

Definition is_GOAL (m : SubagentTerminateMode) : bool :=
  match m with GOAL => true | _ => false end.

(** [createPlan]: [x || null] maps both an absent variable and the
    empty string to [null]. *)
Definition createPlan (run : PlannerRun) : option string :=
  match run with
  | Completes output =>
      if is_GOAL (terminate_reason output) then
        match emitted_vars output !! "execution_plan" with
        | Some s => if String.eqb s "" then None else Some s
        | None => None
        end
      else None
  | CreateThrows _ => None
  | RunThrows _ => None
  end.

(** JSON values, as far as the tool's response carries them. *)
#[local] Unset Elimination Schemes.
Inductive Json :=
| JNull
| JBool (b : bool)
| JNumber (literal : string)
| JString (s : string)
| JArray (items : list Json)
| JObject (fields : list (string * Json)).
#[local] Set Elimination Schemes.

(** The [response] object of the function response. *)
Record ToolResponse := {
  success : bool;
  error : option string;
  plan : option Json
}.

Record FunctionResponsePart := {
  name : string;
  response : ToolResponse
}.

Record ToolResult := {
  llmContent : list FunctionResponsePart;
  returnDisplay : string
}.

Section Execute.

(** [JSON.parse] ([None] is its [SyntaxError]) and
    [JSON.stringify(_, null, 2)] are built-ins of the language. *)
Variable JSON_parse : string -> option Json.
Variable JSON_stringify_2 : Json -> string.

Definition failureMessage : string := "Failed to create a plan.".

(** [execute]; [!plan] holds of [null] and of the empty string. *)
Definition execute (run : PlannerRun) : Result ToolResult :=
  let plan := createPlan run in
  match plan with
  | None =>
      Ok {| llmContent :=
              [{| name := planningToolName;
                  response := {| success := false;
                                 error := Some failureMessage;
                                 plan := None |} |}];
            returnDisplay := failureMessage |}
  | Some plan =>
      if String.eqb plan "" then
        Ok {| llmContent :=
                [{| name := planningToolName;
                    response := {| success := false;
                                   error := Some failureMessage;
                                   plan := None |} |}];
              returnDisplay := failureMessage |}
      else
        match JSON_parse plan with
        | Some parsedPlan =>
            let formattedPlan := JSON_stringify_2 parsedPlan in
            Ok {| llmContent :=
                    [{| name := planningToolName;
                        response := {| success := true;
                                       error := None;
                                       plan := Some parsedPlan |} |}];
                  returnDisplay := formattedPlan |}
        | None =>
            Ok {| llmContent :=
                    [{| name := planningToolName;
                        response := {| success := false;
                                       error := Some "Invalid JSON response";
                                       plan := None |} |}];
                  returnDisplay := plan |}
        end
  end.

End Execute.

(** The two failure results of [execute]. *)
Definition failureResult : ToolResult :=
  {| llmContent :=
       [{| name := planningToolName;
           response := {| success := false;
                          error := Some failureMessage;
                          plan := None |} |}];
     returnDisplay := failureMessage |}.

Definition invalidJsonResult (raw : string) : ToolResult :=
  {| llmContent :=
       [{| name := planningToolName;
           response := {| success := false;
                          error := Some "Invalid JSON response";
                          plan := None |} |}];
     returnDisplay := raw |}.

(** Every function response of a result reports failure. *)
Definition reportsFailure (r : ToolResult) : Prop :=
  llmContent r <> [] /\
  Forall (fun p => name p = planningToolName /\ success (response p) = false)
         (llmContent r).

End PlanningTool.

(** ** Reading the history, and the schema-depth hint *)

(** [getHistory(curated)].  The deep copy made by [structuredClone] is
    the value itself; [None] when curating does not terminate. *)
Definition getHistory (curated : bool) (chat : GeminiChat)
  : option (list Content) :=
  if curated then extractCuratedHistory (history chat)
  else Some (history chat).

(** The line feed of the template literals. *)
Definition LF : string := String (ascii_of_nat 10) "".

(** [parts.join(sep)] *)
Fixpoint join (sep : string) (items : list string) : string :=
  match items with
  | [] => ""
  | x :: rest =>
      match rest with
      | [] => x
      | _ :: _ => x +:+ sep +:+ join sep rest
      end
  end.

Section SchemaDepthContext.

(** The schema type and [hasCycleInSchema] belong to [tools/tools.ts],
    which is not among the sources. *)
Variable Schema : Type.
Variable hasCycleInSchema : Schema -> bool.

Record ToolSchema := {
  parametersJsonSchema : option Schema;
  parameters : option Schema
}.

Record RegisteredTool := {
  displayName : string;
  schema : ToolSchema
}.

(** [s && hasCycleInSchema(s)] *)
Definition schema_has_cycle (s : option Schema) : bool :=
  match s with Some x => hasCycleInSchema x | None => false end.

(** The [for (const tool of tools)] loop that gathers the display names
    of the tools with a cyclic schema. *)
Fixpoint cyclicSchemaTools_of (tools : list RegisteredTool) : list string :=
  match tools with
  | [] => []
  | tool :: rest =>
      if schema_has_cycle (parametersJsonSchema (schema tool))
         || schema_has_cycle (parameters (schema tool))
      then displayName tool :: cyclicSchemaTools_of rest
      else cyclicSchemaTools_of rest
  end.

Definition schemaDepthHint : string :=
  LF +:+ LF +:+
  "This error was probably caused by cyclic schema references in one of the following tools, try disabling them with excludeTools:"
  +:+ LF +:+ LF +:+ " - ".

(** [maybeIncludeSchemaDepthContext]: the message of the error after the
    call, given the tools of the registry. *)
Definition maybeIncludeSchemaDepthContext (tools : list RegisteredTool)
    (message : string) : string :=
  if isSchemaDepthError message || isInvalidArgumentError message then
    let cyclicSchemaTools := cyclicSchemaTools_of tools in
    if negb (Nat.eqb (length cyclicSchemaTools) 0) then
      message +:+ (schemaDepthHint
                   +:+ join (LF +:+ " - ") cyclicSchemaTools +:+ LF)
    else message
  else message.

End SchemaDepthContext.

Arguments parametersJsonSchema {Schema} _.
Arguments parameters {Schema} _.
Arguments displayName {Schema} _.
Arguments schema {Schema} _.

(** ** Vocabulary of the statements *)

(** The retry test of the streaming loop:
    [isRetryableNetworkError || isContentError]. *)
Definition streamRetryable (error : Thrown) : bool :=
  includes (errorMessage_of error) "429"
  || matches_5dd (errorMessage_of error)
  || isEmptyStreamError error.

(** The curated history computed in one pass: [pending] holds the model
    turns of the run being read and [valid] tells whether all of them
    were valid; the run is flushed at the next turn that is not a model
    turn, and at the end. *)
Fixpoint curatedRuns (pending : list Content) (valid : bool)
    (h : list Content) : list Content :=
  match h with
  | [] => if valid then pending else []
  | c :: rest =>
      if role_is c "model" then
        curatedRuns (pending ++ [c]) (valid && isValidContent c) rest
      else (if valid then pending else []) ++ c :: curatedRuns [] true rest
  end.

(** A turn whose role is neither user nor model. *)
Definition otherRole (c : Content) : Prop :=
  role_is c "user" = false /\ role_is c "model" = false.

(** Two neighbours that are both text turns. *)
Fixpoint textAdjacent (l : list Content) : bool :=
  match l with
  | c1 :: rest =>
      (isTextContent (Some c1) && isTextContent (head rest))
      || textAdjacent rest
  | [] => false
  end.

(** The parts a valid chunk contributes to the assembled model turn. *)
Definition chunkParts (chunk : GenerateContentResponse) : list Part :=
  match first_candidate_content chunk with
  | Some c => default [] (parts c)
  | None => []
  end.


(** Every turn has role ['user'] or ['model']: what [validateHistory]
    accepts, and the type of a turn in the data model. *)
Definition wellRoled (h : list Content) : Prop :=
  Forall (fun c => role c = Some "user" \/ role c = Some "model") h.

Definition startsWithModel (h : list Content) : bool :=
  match h with
  | c :: _ => role_is c "model"
  | [] => false
  end.

(** Two neighbours with the same role. *)
Fixpoint sameRoleAdjacent (h : list Content) : bool :=
  match h with
  | c1 :: rest =>
      match rest with
      | c2 :: _ =>
          (role_is c1 "user" && role_is c2 "user")
          || (role_is c1 "model" && role_is c2 "model")
          || sameRoleAdjacent rest
      | [] => false
      end
  | [] => false
  end.

(** Two neighbours that are both model turns. *)
Fixpoint modelsAdjacent (h : list Content) : bool :=
  match h with
  | c1 :: rest => (role_is c1 "model" && startsWithModel rest)
                  || modelsAdjacent rest
  | [] => false
  end.

(** Strict alternation starting with the user. *)
Definition strictlyAlternating (h : list Content) : bool :=
  negb (startsWithModel h) && negb (sameRoleAdjacent h).

(** The curated history in the words of the data model: turn [i] is kept
    when it is a user turn, or a model turn such that every turn of the
    maximal run of model turns around it is valid.  Turn [j] lies in that
    run when all turns from [i] to [j] are model turns. *)
Definition allModelBetween (h : list Content) (i j : nat) : Prop :=
  forall k, Nat.min i j <= k <= Nat.max i j ->
            exists c, h !! k = Some c /\ role c = Some "model".

Definition runValidAround (h : list Content) (i : nat) : Prop :=
  forall j c, h !! j = Some c -> allModelBetween h i j ->
              isValidContent c = true.

Definition kept (h : list Content) (i : nat) : Prop :=
  exists c, h !! i = Some c /\
    (role c = Some "user" \/ (role c = Some "model" /\ runValidAround h i)).

(** The same, as functions that compute. *)
Definition isModelAt (h : list Content) (k : nat) : bool :=
  match h !! k with Some c => role_is c "model" | None => false end.

Definition allModelBetweenb (h : list Content) (i j : nat) : bool :=
  forallb (isModelAt h) (seq (Nat.min i j) (S (Nat.max i j - Nat.min i j))).

Definition runValidAroundb (h : list Content) (i : nat) : bool :=
  forallb (fun j => match h !! j with
                    | Some c => implb (allModelBetweenb h i j) (isValidContent c)
                    | None => true
                    end)
          (seq 0 (length h)).

Definition keptb (h : list Content) (i : nat) : bool :=
  match h !! i with
  | Some c => role_is c "user" || (role_is c "model" && runValidAroundb h i)
  | None => false
  end.

(** The elements of [l] whose index, counted from [i], satisfies [keep],
    in their order. *)
Fixpoint selectFrom {A} (keep : nat -> bool) (i : nat) (l : list A) : list A :=
  match l with
  | [] => []
  | x :: rest =>
      if keep i then x :: selectFrom keep (S i) rest
      else selectFrom keep (S i) rest
  end.

Definition curatedSpec (h : list Content) : list Content :=
  selectFrom (keptb h) 0 h.

(** An invalid model turn, in the words of the data model. *)
Definition partIsEmpty (p : Part) : Prop :=
  text p = None /\ thought p = None /\
  functionCall p = None /\ functionResponse p = None.

Definition nonThoughtEmptyText (p : Part) : Prop :=
  thought p <> Some true /\ text p = Some "".

Definition invalidTurn (c : Content) : Prop :=
  parts c = None \/ parts c = Some [] \/
  exists ps p, parts c = Some ps /\ In p ps /\
               (partIsEmpty p \/ nonThoughtEmptyText p).

(** The text a turn carries: the texts of its parts, in order. *)
Definition partText (p : Part) : string := or_empty (text p).

Fixpoint partsText (ps : list Part) : string :=
  match ps with
  | [] => ""
  | p :: rest => partText p +:+ partsText rest
  end.

Definition turnText (c : Content) : string :=
  match parts c with Some ps => partsText ps | None => "" end.

Fixpoint historyText (h : list Content) : string :=
  match h with
  | [] => ""
  | c :: rest => turnText c +:+ historyText rest
  end.

(** A model turn made of text parts only, each with a non-empty text. *)
Definition isTextPart (p : Part) : bool :=
  first_text_nonempty p
  && match thought p, functionCall p, functionResponse p with
     | None, None, None => true
     | _, _, _ => false
     end.

Definition pureTextTurn (c : Content) : bool :=
  role_is c "model"
  && match parts c with
     | Some (p :: ps) => forallb isTextPart (p :: ps)
     | _ => false
     end.

(** A turn with exactly one part. *)
Definition singlePart (c : Content) : bool :=
  match parts c with Some [_] => true | _ => false end.

(** Substring, as a proposition. *)
Definition contains (hay needle : string) : Prop :=
  exists pre post, hay = pre +:+ needle +:+ post.


(** A selection [keep] that drops no user turn of [t], the indices of
    [t] counted from [i]. *)
Definition keepsUsers (keep : nat -> bool) (i : nat) (t : list Content)
  : Prop :=
  forall k c, t !! k = Some c -> role_is c "user" = true -> keep (i + k) = true.


(** A part with its text replaced. *)
Definition withText (p : Part) (s : string) : Part :=
  {| text := Some s; thought := thought p;
     functionCall := functionCall p; functionResponse := functionResponse p |}.

(** Every text turn has a single part. *)
Definition textTurnsSingle (l : list Content) : Prop :=
  Forall (fun c => isTextContent (Some c) = true -> singlePart c = true) l.

Definition noThoughtTurns (l : list Content) : Prop :=
  Forall (fun c => isThoughtContent (Some c) = false) l.

(** The model output that is not thought content. *)
Definition nonThought (out : list Content) : list Content :=
  List.filter (fun content => negb (isThoughtContent (Some content))) out.

(** ** Sample turns and histories *)

Definition textPart (s : string) : Part :=
  {| text := Some s; thought := None;
     functionCall := None; functionResponse := None |}.

Definition userTurn (s : string) : Content :=
  {| role := Some "user"; parts := Some [textPart s] |}.

Definition modelTurn (s : string) : Content :=
  {| role := Some "model"; parts := Some [textPart s] |}.

Definition historyC3 : list Content :=
  [userTurn "q1"; modelTurn ""; modelTurn "a1"; userTurn "q2";
   modelTurn "a2"; modelTurn "a3"].

Definition systemTurn (s : string) : Content :=
  {| role := Some "system"; parts := Some [textPart s] |}.


Definition sampleConfig : Config :=
  {| model := "gemini-2.5-pro"; fallbackMode := false;
     quotaErrorOccurred := false; cg_authType := Some "oauth-personal" |}.

(** [isFunctionResponse] as the repository's [messageInspectors.ts]
    defines it, for use in examples: a user turn all of whose parts are
    function responses. *)
Definition sample_isFunctionResponse (c : Content) : bool :=
  role_is c "user"
  && match parts c with
     | Some ps =>
         forallb (fun p => match functionResponse p with
                           | Some _ => true
                           | None => false
                           end) ps
     | None => false
     end.

Definition twoTextTurn (s1 s2 : string) : Content :=
  {| role := Some "model"; parts := Some [textPart s1; textPart s2] |}.




(** A chunk whose only part is a non-thought empty text, and a content
    generator whose every stream consists of that chunk. *)
Definition invalidChunk : GenerateContentResponse :=
  {| candidates :=
       Some [{| content := Some {| role := Some "model";
                                   parts := Some [textPart ""] |} |}];
     automaticFunctionCallingHistory := None |}.

Definition invalidStream : StreamData :=
  {| chunks := [invalidChunk]; breaks_with := None |}.

Definition invalidStreamGenerator
  : nat -> string -> list Content -> Result StreamData :=
  fun _ _ _ => Ok invalidStream.

(** A content generator whose every request is rejected with a 429. *)
Definition error429 : Thrown :=
  JsError PlainError "got status: 429 Too Many Requests".

Definition rejectingGenerator
  : nat -> string -> list Content -> Result StreamData :=
  fun _ _ _ => Throw error429.

Definition sampleChat : GeminiChat :=
  {| config := sampleConfig; history := [userTurn "q"; modelTurn "a"] |}.

(** A planner run that reaches its goal and emits [plan] as its
    execution plan, and a [JSON.parse] that accepts the literal [null]
    only, which is enough to tell the two outcomes apart. *)
Definition goalRun (plan : string) : PlanningTool.PlannerRun :=
  PlanningTool.Completes
    {| PlanningTool.terminate_reason := PlanningTool.GOAL;
       PlanningTool.emitted_vars := {[ "execution_plan" := plan ]} |}.

Definition parseNullOnly (s : string) : option PlanningTool.Json :=
  if String.eqb s "null" then Some PlanningTool.JNull else None.

Definition stringifyNullOnly (j : PlanningTool.Json) : string := "null".

(** A user turn that carries one function response. *)
Definition functionResponseTurn (tool result : string) : Content :=
  {| role := Some "user";
     parts := Some [{| text := None; thought := None; functionCall := None;
                       functionResponse :=
                         Some {| fr_name := tool;
                                 fr_response := result |} |}] |}.

(** A turn without a role. *)
Definition rolelessTurn (s : string) : Content :=
  {| role := None; parts := Some [textPart s] |}.

(** A chunk with one text part, and a stream of two such chunks. *)
Definition textChunk (s : string) : GenerateContentResponse :=
  {| candidates :=
       Some [{| content := Some {| role := Some "model";
                                   parts := Some [textPart s] |} |}];
     automaticFunctionCallingHistory := None |}.

Definition helloStream : StreamData :=
  {| chunks := [textChunk "Hello, "; textChunk "world"];
     breaks_with := None |}.

(** A session whose quota-error flag is set and whose model is Flash. *)
Definition quotaConfig : Config :=
  {| model := "gemini-2.5-flash"; fallbackMode := true;
     quotaErrorOccurred := true; cg_authType := Some "oauth-personal" |}.

Definition quotaChat : GeminiChat :=
  {| config := quotaConfig; history := [userTurn "q"; modelTurn "a"] |}.

(** The result of [execute] for a plan that parses. *)
Definition planSuccessResult (parsedPlan : PlanningTool.Json)
    (formattedPlan : string) : PlanningTool.ToolResult :=
  {| PlanningTool.llmContent :=
       [{| PlanningTool.name := PlanningTool.planningToolName;
           PlanningTool.response :=
             {| PlanningTool.success := true;
                PlanningTool.error := None;
                PlanningTool.plan := Some parsedPlan |} |}];
     PlanningTool.returnDisplay := formattedPlan |}.

(** A run that yields a usable plan: reason GOAL and a non-empty
    [execution_plan] variable. *)
Definition yieldsPlan (run : PlanningTool.PlannerRun) (plan : string) : Prop :=
  exists vars,
    run = PlanningTool.Completes
            {| PlanningTool.terminate_reason := PlanningTool.GOAL;
               PlanningTool.emitted_vars := vars |}
    /\ vars !! "execution_plan" = Some plan /\ plan <> "".

(** A response whose first candidate carries [c] and which has no
    side-channel history. *)
Definition responseWith (c : Content) : GenerateContentResponse :=
  {| candidates := Some [{| content := Some c |}];
     automaticFunctionCallingHistory := None |}.

(** The test of the schema-depth hint on one tool. *)
Definition toolHasCyclicSchema (Schema : Type)
    (hasCycleInSchema : Schema -> bool) (tool : RegisteredTool Schema)
  : bool :=
  schema_has_cycle Schema hasCycleInSchema (parametersJsonSchema (schema tool))
  || schema_has_cycle Schema hasCycleInSchema (parameters (schema tool)).

(** A response whose side-channel history repeats the sample chat's
    history and goes on with a tool exchange. *)
Definition toolTrace : list Content :=
  [userTurn "list the files"; modelTurn "calling ls";
   functionResponseTurn "ls" "ok"].

Definition splicedResponse : GenerateContentResponse :=
  {| candidates := Some [{| content := Some (modelTurn "done") |}];
     automaticFunctionCallingHistory :=
       Some ([userTurn "q"; modelTurn "a"] ++ toolTrace) |}.



Ltac solve_wellRoled :=
  unfold wellRoled;
  repeat (apply List.Forall_cons;
          [first [left; reflexivity | right; reflexivity]|]);
  apply List.Forall_nil.

(** * Properties *)

(** ** Roles and validity *)

Lemma role_is_true c r : role_is c r = true <-> role c = Some r.
Proof.
  unfold role_is. destruct (role c) as [s|]; [|split; discriminate].
  rewrite String.eqb_eq. split; congruence.
Qed.

Lemma role_is_user_model c :
  role_is c "user" = true -> role_is c "model" = false.
Proof.
  intros Hu. apply role_is_true in Hu. unfold role_is. rewrite Hu. reflexivity.
Qed.

Lemma wellRoled_cases c :
  role c = Some "user" \/ role c = Some "model" ->
  (role_is c "user" = true /\ role_is c "model" = false)
  \/ (role_is c "user" = false /\ role_is c "model" = true).
Proof.
  intros [H|H]; unfold role_is; rewrite H; [left|right]; split; reflexivity.
Qed.

Lemma isValidContent_parts_false ps :
  isValidContent_parts ps = false <->
  exists p, In p ps /\ (partIsEmpty p \/ nonThoughtEmptyText p).
Proof.
  induction ps as [|p ps IH]; simpl.
  - split; [discriminate | intros (p & [] & _)].
  - destruct (Object_keys_length p =? 0) eqn:Hk.
    + split; [intros _ | reflexivity].
      exists p. split; [now left | left].
      apply Nat.eqb_eq in Hk. unfold Object_keys_length, key_count in Hk.
      unfold partIsEmpty.
      destruct (text p), (thought p), (functionCall p), (functionResponse p);
        simpl in Hk; try discriminate; auto.
    + apply Nat.eqb_neq in Hk.
      destruct (negb (thought_truthy p) && text_is_empty_string p) eqn:Ht.
      * split; [intros _ | reflexivity].
        exists p. split; [now left | right].
        apply andb_true_iff in Ht as [Ht1 Ht2].
        unfold nonThoughtEmptyText, thought_truthy, text_is_empty_string in *.
        split.
        -- intros E. rewrite E in Ht1. discriminate.
        -- destruct (text p) as [s|]; [|discriminate].
           apply String.eqb_eq in Ht2. now subst.
      * rewrite IH. split.
        -- intros (q & Hq & Hbad). exists q. split; [now right | exact Hbad].
        -- intros (q & [->|Hq] & Hbad); [|now exists q].
           exfalso. destruct Hbad as [He|[Hn Hs]].
           ++ apply Hk. destruct He as (E1 & E2 & E3 & E4).
              unfold Object_keys_length. now rewrite E1, E2, E3, E4.
           ++ unfold thought_truthy, text_is_empty_string in Ht.
              rewrite Hs in Ht. simpl in Ht.
              destruct (thought q) as [[|]|]; simpl in Ht;
                try discriminate. now apply Hn.
Qed.

Lemma isValidContent_false c : isValidContent c = false <-> invalidTurn c.
Proof.
  unfold isValidContent, invalidTurn.
  destruct (parts c) as [ps|].
  - destruct ps as [|p ps].
    + simpl. split; [intros _; right; now left | reflexivity].
    + cbn [length Nat.eqb]. rewrite isValidContent_parts_false. split.
      * intros (q & Hq & Hbad). right; right. exists (p :: ps), q. auto.
      * intros [H|[H|(ps' & q & E & Hq & Hbad)]]; try discriminate.
        injection E as <-. now exists q.
  - split; [intros _; now left | reflexivity].
Qed.

(** ** The loops of [extractCuratedHistory] *)

Lemma modelRun_spec todo : forall acc v,
  exists run rest,
    modelRun todo acc v = (acc ++ run, v && forallb isValidContent run, rest)
    /\ todo = run ++ rest
    /\ Forall (fun c => role_is c "model" = true) run
    /\ (forall c, head rest = Some c -> role_is c "model" = false).
Proof.
  induction todo as [|c todo IH]; intros acc v; simpl.
  - exists [], []. rewrite app_nil_r, andb_true_r. repeat split; auto.
    intros c; discriminate.
  - destruct (role_is c "model") eqn:Hm.
    + destruct (IH (acc ++ [c])
                   (if v && negb (isValidContent c) then false else v))
        as (run & rest & E & Ht & Hrun & Hrest).
      exists (c :: run), rest. rewrite E. repeat split; auto.
      * rewrite <- app_assoc. simpl. f_equal. f_equal.
        destruct v, (isValidContent c); reflexivity.
      * simpl. now rewrite Ht.
    + exists [], (c :: todo). rewrite app_nil_r, andb_true_r.
      repeat split; auto. simpl. intros c' [= <-]. exact Hm.
Qed.

Lemma selectFrom_app {A} keep (l1 l2 : list A) : forall i,
  selectFrom keep i (l1 ++ l2)
  = selectFrom keep i l1 ++ selectFrom keep (i + length l1) l2.
Proof.
  induction l1 as [|x l1 IH]; intros i; simpl.
  - now rewrite Nat.add_0_r.
  - rewrite IH. replace (S i + length l1) with (i + S (length l1)) by lia.
    now destruct (keep i).
Qed.

Lemma selectFrom_const {A} keep (b : bool) (l : list A) : forall i,
  (forall k, i <= k < i + length l -> keep k = b) ->
  selectFrom keep i l = if b then l else [].
Proof.
  induction l as [|x l IH]; intros i Hk; simpl.
  - now destruct b.
  - rewrite (Hk i) by (simpl; lia).
    rewrite IH by (intros k Hr; apply Hk; simpl; lia).
    now destruct b.
Qed.

(** ** The computed and the stated form of "kept" agree *)

Lemma isModelAt_true h k :
  isModelAt h k = true <-> exists c, h !! k = Some c /\ role c = Some "model".
Proof.
  unfold isModelAt. destruct (h !! k) as [c|].
  - rewrite role_is_true. split; [intros H; now exists c|].
    now intros (c' & [= <-] & H).
  - split; [discriminate | now intros (c' & E & _)].
Qed.

Lemma allModelBetweenb_spec h i j :
  allModelBetweenb h i j = true <-> allModelBetween h i j.
Proof.
  unfold allModelBetweenb, allModelBetween.
  rewrite forallb_forall. split.
  - intros H k Hk. apply isModelAt_true, H, in_seq. lia.
  - intros H k Hk. apply in_seq in Hk. apply isModelAt_true, H. lia.
Qed.

Lemma runValidAroundb_spec h i :
  runValidAroundb h i = true <-> runValidAround h i.
Proof.
  unfold runValidAroundb, runValidAround. rewrite forallb_forall. split.
  - intros H j c Hj Hb.
    assert (Hin : In j (seq 0 (length h))).
    { apply in_seq. apply lookup_lt_Some in Hj. lia. }
    specialize (H j Hin). rewrite Hj in H.
    apply allModelBetweenb_spec in Hb. rewrite Hb in H. exact H.
  - intros H j _. destruct (h !! j) as [c|] eqn:Hj; [|reflexivity].
    destruct (allModelBetweenb h i j) eqn:Hb; [|reflexivity].
    simpl. apply (H j c Hj). now apply allModelBetweenb_spec.
Qed.

Lemma keptb_spec h i : keptb h i = true <-> kept h i.
Proof.
  unfold keptb, kept. destruct (h !! i) as [c|].
  - rewrite orb_true_iff, andb_true_iff, !role_is_true, runValidAroundb_spec.
    split.
    + intros H. now exists c.
    + now intros (c' & [= <-] & H).
  - split; [discriminate | now intros (c' & E & _)].
Qed.

(** A user turn is kept wherever it stands. *)
Lemma keptb_user pre c rest :
  role_is c "user" = true -> keptb (pre ++ c :: rest) (length pre) = true.
Proof.
  intros Hu. unfold keptb.
  rewrite lookup_app_r by lia. rewrite Nat.sub_diag. simpl.
  now rewrite Hu.
Qed.

(** A maximal run of model turns is kept or dropped as a whole. *)
Lemma kept_run pre run rest i :
  Forall (fun c => role_is c "model" = true) run ->
  (forall c, last pre = Some c -> role_is c "model" = false) ->
  (forall c, head rest = Some c -> role_is c "model" = false) ->
  length pre <= i < length pre + length run ->
  kept (pre ++ run ++ rest) i <-> forallb isValidContent run = true.
Proof.
  intros Hrun Hleft Hright Hi.
  assert (Hin : forall k, length pre <= k < length pre + length run ->
            exists c, (pre ++ run ++ rest) !! k = Some c
                      /\ run !! (k - length pre) = Some c
                      /\ role c = Some "model").
  { intros k Hk.
    destruct (lookup_lt_is_Some_2 run (k - length pre)) as [c Hc]; [lia|].
    exists c. rewrite lookup_app_r by lia.
    rewrite lookup_app_l by lia. repeat split; auto.
    apply role_is_true.
    rewrite Forall_forall in Hrun. apply Hrun.
    eapply list_elem_of_lookup_2, Hc. }
  rewrite forallb_forall. split.
  - intros (c & Hc & Hkeep) x Hx.
    destruct (Hin i Hi) as (c' & Hc' & _ & Hm).
    rewrite Hc in Hc'. injection Hc' as <-.
    destruct Hkeep as [Hu|[_ Hv]]; [congruence|].
    apply list_elem_of_In, list_elem_of_lookup_1 in Hx as [j Hj].
    assert (Hjl : j < length run) by (eapply lookup_lt_Some, Hj).
    apply (Hv (length pre + j) x).
    + rewrite lookup_app_r by lia. rewrite lookup_app_l by lia.
      rewrite <- Hj. f_equal. lia.
    + intros k Hk. destruct (Hin k) as (d & Hd & _ & Hdm); [lia|]. eauto.
  - intros Hvalid. destruct (Hin i Hi) as (c & Hc & _ & Hm).
    exists c. split; [exact Hc|]. right. split; [exact Hm|].
    intros j c' Hj Hbetween.
    destruct (Nat.lt_ge_cases j (length pre)) as [Hlo|Hlo].
    + exfalso.
      destruct (Hbetween (length pre - 1)) as (d & Hd & Hdm); [lia|].
      rewrite lookup_app_l in Hd by lia.
      assert (Hl : last pre = Some d).
      { rewrite last_lookup. rewrite <- Hd. f_equal. lia. }
      apply Hleft in Hl. apply role_is_true in Hdm. congruence.
    + destruct (Nat.lt_ge_cases j (length pre + length run)) as [Hhi|Hhi].
      * destruct (Hin j) as (d & Hd & Hdr & _); [lia|].
        rewrite Hj in Hd. injection Hd as <-.
        apply Hvalid.
        eapply list_elem_of_In, list_elem_of_lookup_2, Hdr.
      * exfalso.
        destruct (Hbetween (length pre + length run)) as (d & Hd & Hdm);
          [lia|].
        rewrite lookup_app_r in Hd by lia.
        rewrite lookup_app_r in Hd by lia.
        assert (Hh : head rest = Some d).
        { rewrite head_lookup. rewrite <- Hd. f_equal. lia. }
        apply Hright in Hh. apply role_is_true in Hdm. congruence.
Qed.

Lemma keptb_run pre run rest i :
  Forall (fun c => role_is c "model" = true) run ->
  (forall c, last pre = Some c -> role_is c "model" = false) ->
  (forall c, head rest = Some c -> role_is c "model" = false) ->
  length pre <= i < length pre + length run ->
  keptb (pre ++ run ++ rest) i = forallb isValidContent run.
Proof.
  intros Hrun Hleft Hright Hi.
  apply eq_true_iff_eq. rewrite keptb_spec. now apply kept_run.
Qed.

(** The loop computes the stated selection.  [pre] is the part of the
    history already visited; no run of model turns straddles the place
    where the loop stands. *)
Lemma extractCuratedHistory_loop_select : forall n suf pre acc,
  length suf < n ->
  wellRoled suf ->
  (forall c c', last pre = Some c -> head suf = Some c' ->
                role_is c "model" = true -> role_is c' "model" = false) ->
  extractCuratedHistory_loop n suf acc
  = Some (acc ++ selectFrom (keptb (pre ++ suf)) (length pre) suf).
Proof.
  induction n as [|n IH]; intros suf pre acc Hn Hwr Hb; [lia|].
  destruct suf as [|c t]; cbn [extractCuratedHistory_loop].
  - simpl. now rewrite app_nil_r.
  - inversion Hwr as [|? ? Hc Ht]; subst.
    destruct (wellRoled_cases c Hc) as [[Hu Hm]|[Hu Hm]]; rewrite Hu.
    + cbn [selectFrom]. rewrite (keptb_user pre c t Hu).
      rewrite (IH t (pre ++ [c]) (acc ++ [c])).
      * rewrite <- !app_assoc. simpl. rewrite length_app. simpl.
        now rewrite Nat.add_1_r.
      * simpl in Hn. lia.
      * exact Ht.
      * intros d d' Hl _ Hdm. rewrite last_snoc in Hl.
        injection Hl as <-. congruence.
    + destruct (modelRun_spec (c :: t) [] true)
        as (run & rest & E & Hsplit & Hrun & Hrest).
      rewrite E. clear E. cbn [app andb].
      assert (Hlen : 0 < length run).
      { destruct run as [|r run]; simpl; [|lia].
        simpl in Hsplit. subst rest.
        specialize (Hrest c eq_refl). congruence. }
      assert (Hwr' : wellRoled rest).
      { unfold wellRoled in *. rewrite Hsplit in Hwr.
        now apply Forall_app in Hwr as [_ ?]. }
      assert (Hleft : forall d, last pre = Some d -> role_is d "model" = false).
      { intros d Hd. destruct (role_is d "model") eqn:Hdm; [|reflexivity].
        specialize (Hb d c Hd eq_refl Hdm). congruence. }
      rewrite (IH rest (pre ++ run)).
      * f_equal. rewrite Hsplit. rewrite selectFrom_app.
        rewrite (selectFrom_const _ (forallb isValidContent run) run).
        -- rewrite length_app.
           rewrite <- (app_assoc pre run rest).
           destruct (forallb isValidContent run);
             now rewrite <- ?app_assoc.
        -- intros k Hk. now apply keptb_run.
      * apply (f_equal (@length _)) in Hsplit. rewrite length_app in Hsplit.
        simpl in Hsplit, Hn. lia.
      * exact Hwr'.
      * intros d d' _ Hd' _. now apply Hrest.
Qed.

(** On a history with roles user and model only, [extractCuratedHistory]
    returns, and returns the stated selection. *)
Lemma extractCuratedHistory_select h :
  wellRoled h -> extractCuratedHistory h = Some (curatedSpec h).
Proof.
  intros Hwr. unfold extractCuratedHistory, curatedSpec.
  rewrite (extractCuratedHistory_loop_select _ h [] []); auto.
  intros c c' Hl. discriminate.
Qed.

(** A turn with any other role stops the loop from advancing: no amount
    of fuel lets it finish. *)
Lemma extractCuratedHistory_loop_stuck n : forall c rest acc,
  role_is c "user" = false -> role_is c "model" = false ->
  extractCuratedHistory_loop n (c :: rest) acc = None.
Proof.
  induction n as [|n IH]; intros c rest acc Hu Hm; simpl; [reflexivity|].
  rewrite Hu, Hm. now apply IH.
Qed.

(** The same holds wherever such a turn stands in the history: the loop
    reaches it and stays there. *)
Lemma extractCuratedHistory_loop_diverges n : forall h acc,
  Exists (fun c => role_is c "user" = false /\ role_is c "model" = false) h ->
  extractCuratedHistory_loop n h acc = None.
Proof.
  induction n as [|n IH]; intros h acc Hbad; [reflexivity|].
  destruct h as [|c t]; [inversion Hbad|].
  cbn [extractCuratedHistory_loop].
  destruct (role_is c "user") eqn:Hu.
  - apply IH. inversion Hbad as [? ? [Hcu _]|]; subst; [congruence|assumption].
  - destruct (modelRun_spec (c :: t) [] true)
      as (run & rest & E & Hsplit & Hrun & Hrest).
    rewrite E. apply IH.
    rewrite Hsplit in Hbad. apply Exists_app in Hbad as [Hbad|Hbad];
      [|exact Hbad].
    exfalso. apply Exists_exists in Hbad as (d & Hd & _ & Hdm).
    rewrite Forall_forall in Hrun. specialize (Hrun d Hd). congruence.
Qed.

Example extractCuratedHistory_other_role :
  extractCuratedHistory [userTurn "q"; modelTurn "a"; systemTurn "s"] = None.
Proof. reflexivity. Qed.

Lemma keptb_user_at h k c :
  h !! k = Some c -> role_is c "user" = true -> keptb h k = true.
Proof. intros Hk Hu. unfold keptb. now rewrite Hk, Hu. Qed.

(** ** Selections that keep every user turn *)

Section KeepsUsers.

Variable keep : nat -> bool.

Lemma keepsUsers_tail i c t : keepsUsers keep i (c :: t) -> keepsUsers keep (S i) t.
Proof.
  intros H k d Hk Hu. replace (S i + k) with (i + S k) by lia.
  now apply (H (S k) d).
Qed.

Lemma keepsUsers_head i c t :
  keepsUsers keep i (c :: t) -> role_is c "user" = true -> keep i = true.
Proof.
  intros H Hu. rewrite <- (Nat.add_0_r i). now apply (H 0 c).
Qed.

Lemma select_startsWithModel i t :
  keepsUsers keep i t ->
  wellRoled t ->
  startsWithModel (selectFrom keep i t) = true -> startsWithModel t = true.
Proof.
  intros Hk Hwr. destruct t as [|c t]; simpl; [discriminate|].
  inversion Hwr as [|? ? Hc Ht]; subst.
  destruct (wellRoled_cases c Hc) as [[Hu Hm]|[Hu Hm]]; [|now rewrite Hm].
  rewrite (keepsUsers_head i c t Hk Hu). simpl. now rewrite Hm.
Qed.

Lemma select_modelsAdjacent t : forall i,
  keepsUsers keep i t ->
  wellRoled t ->
  modelsAdjacent (selectFrom keep i t) = true -> modelsAdjacent t = true.
Proof.
  induction t as [|c t IH]; intros i Hk Hwr; simpl; [discriminate|].
  inversion Hwr as [|? ? Hc Ht]; subst.
  pose proof (keepsUsers_tail i c t Hk) as Hk'.
  destruct (keep i) eqn:Hki; simpl.
  - rewrite !orb_true_iff, !andb_true_iff. intros [[Hm Hs]|Hadj].
    + left. split; [exact Hm|]. now apply (select_startsWithModel (S i)).
    + right. now apply (IH (S i)).
  - intros Hadj. rewrite orb_true_iff. right. now apply (IH (S i)).
Qed.

Lemma select_users t : forall i,
  keepsUsers keep i t ->
  List.filter (fun c => role_is c "user") (selectFrom keep i t)
  = List.filter (fun c => role_is c "user") t.
Proof.
  induction t as [|c t IH]; intros i Hk; simpl; [reflexivity|].
  pose proof (keepsUsers_tail i c t Hk) as Hk'.
  destruct (role_is c "user") eqn:Hu.
  - rewrite (keepsUsers_head i c t Hk Hu). simpl. rewrite Hu.
    f_equal. now apply IH.
  - destruct (keep i); simpl; rewrite ?Hu; now apply IH.
Qed.

End KeepsUsers.

Lemma keptb_keepsUsers h : keepsUsers (keptb h) 0 h.
Proof. intros k c Hk Hu. simpl. now apply (keptb_user_at h k c). Qed.

(** ** Curated history: the claims *)


(** C1, as stated, fails: a comprehensive history that alternates
    strictly, [user, model, user] with an empty model turn in the middle,
    is curated to two user turns in a row. *)
Lemma C1_curated_not_alternating :
  wellRoled [userTurn "a"; emptyModelContent; userTurn "b"]
  /\ strictlyAlternating [userTurn "a"; emptyModelContent; userTurn "b"] = true
  /\ extractCuratedHistory [userTurn "a"; emptyModelContent; userTurn "b"]
     = Some [userTurn "a"; userTurn "b"]
  /\ sameRoleAdjacent [userTurn "a"; userTurn "b"] = true
  /\ extractCuratedHistory [modelTurn "m"] = Some [modelTurn "m"]
  /\ startsWithModel [modelTurn "m"] = true.
Proof.
  split; [solve_wellRoled|].
  repeat split; reflexivity.
Qed.

(** C1, amended: on a history whose turns all have role user or model,
    [extractCuratedHistory] returns a history that keeps every user turn,
    starts with a model turn only if the comprehensive history does, and
    has two model turns in a row only if the comprehensive history has. *)
Theorem C1_curated_roles h :
  wellRoled h ->
  exists r,
    extractCuratedHistory h = Some r
    /\ List.filter (fun c => role_is c "user") r
       = List.filter (fun c => role_is c "user") h
    /\ (startsWithModel r = true -> startsWithModel h = true)
    /\ (modelsAdjacent r = true -> modelsAdjacent h = true).
Proof.
  intros Hwr. exists (curatedSpec h).
  pose proof (keptb_keepsUsers h) as Hk.
  split; [now apply extractCuratedHistory_select|].
  unfold curatedSpec. split; [|split].
  - now apply select_users.
  - now apply select_startsWithModel.
  - now apply select_modelsAdjacent.
Qed.

Lemma C1_curated_roles_witness :
  wellRoled [userTurn "a"; modelTurn "m"; userTurn "b"]
  /\ exists r,
       extractCuratedHistory [userTurn "a"; modelTurn "m"; userTurn "b"]
       = Some r
       /\ List.filter (fun c => role_is c "user") r
          = List.filter (fun c => role_is c "user")
                        [userTurn "a"; modelTurn "m"; userTurn "b"]
       /\ (startsWithModel r = true ->
           startsWithModel [userTurn "a"; modelTurn "m"; userTurn "b"] = true)
       /\ (modelsAdjacent r = true ->
           modelsAdjacent [userTurn "a"; modelTurn "m"; userTurn "b"] = true).
Proof.
  split.
  - solve_wellRoled.
  - apply (C1_curated_roles [userTurn "a"; modelTurn "m"; userTurn "b"]).
    solve_wellRoled.
Defined.

(** C3, as stated, fails: a comprehensive history can hold a turn whose
    role is neither user nor model, since [addHistory] stores what it is
    given.  On such a history [extractCuratedHistory] returns nothing,
    where the claim has it return the user turn and the valid model
    turn: the outer loop neither pushes that turn nor moves past it,
    whatever the number of iterations. *)
Lemma C3_other_role_never_returns :
  addHistory (systemTurn "be brief") sampleChat
  = Ok {| config := sampleConfig;
          history := [userTurn "q"; modelTurn "a"; systemTurn "be brief"] |}
  /\ selectFrom
       (keptb [userTurn "q"; modelTurn "a"; systemTurn "be brief"]) 0
       [userTurn "q"; modelTurn "a"; systemTurn "be brief"]
     = [userTurn "q"; modelTurn "a"]
  /\ extractCuratedHistory
       [userTurn "q"; modelTurn "a"; systemTurn "be brief"]
     = None
  /\ (forall fuel acc,
        extractCuratedHistory_loop fuel
          [userTurn "q"; modelTurn "a"; systemTurn "be brief"] acc
        = None).
Proof.
  split; [reflexivity|]. split; [reflexivity|]. split; [reflexivity|].
  intros fuel acc. apply extractCuratedHistory_loop_diverges.
  apply Exists_cons_tl, Exists_cons_tl, Exists_cons_hd.
  split; reflexivity.
Qed.

(** C3, amended: on a history whose turns all have role user or model,
    [extractCuratedHistory] returns exactly the turns that are user turns
    or lie in a maximal run of model turns all of which are valid, in
    their original order; a model turn is invalid exactly when it has no
    parts, or a part without keys, or a non-thought part whose text is
    the empty string. *)
Theorem C3_curated_exact h :
  wellRoled h ->
  extractCuratedHistory h = Some (selectFrom (keptb h) 0 h)
  /\ (forall i, keptb h i = true <-> kept h i)
  /\ (forall c, isValidContent c = false <-> invalidTurn c).
Proof.
  intros Hwr. split; [|split].
  - now apply extractCuratedHistory_select.
  - intros i. apply keptb_spec.
  - intros c. apply isValidContent_false.
Qed.

Example historyC3_curated :
  extractCuratedHistory historyC3
  = Some [userTurn "q1"; userTurn "q2"; modelTurn "a2"; modelTurn "a3"].
Proof. reflexivity. Qed.

Lemma C3_curated_exact_witness :
  wellRoled historyC3
  /\ extractCuratedHistory historyC3 = Some (selectFrom (keptb historyC3) 0 historyC3)
  /\ (forall i, keptb historyC3 i = true <-> kept historyC3 i)
  /\ (forall c, isValidContent c = false <-> invalidTurn c).
Proof.
  split.
  - solve_wellRoled.
  - apply (C3_curated_exact historyC3). solve_wellRoled.
Defined.

(** ** Construction and direct mutation *)

Lemma validateHistory_throws h :
  (exists e, validateHistory h = Throw e)
  <-> exists c, In c h /\ role c <> Some "user" /\ role c <> Some "model".
Proof.
  induction h as [|c h IH]; simpl.
  - split; [intros [e He]; discriminate | intros (c & [] & _)].
  - destruct (role_is c "user") eqn:Hu; simpl.
    + rewrite IH. split.
      * intros (d & Hd & Hbad). exists d. auto.
      * intros (d & [<-|Hd] & Hbad); [|now exists d].
        apply role_is_true in Hu. destruct Hbad. contradiction.
    + destruct (role_is c "model") eqn:Hm; simpl.
      * rewrite IH. split.
        -- intros (d & Hd & Hbad). exists d. auto.
        -- intros (d & [<-|Hd] & Hbad); [|now exists d].
           apply role_is_true in Hm. destruct Hbad. contradiction.
      * split; [intros _ | intros _; eauto].
        exists c. split; [now left|].
        split; intros E; apply role_is_true in E; congruence.
Qed.

(** C8: the constructor throws exactly when some turn of the given
    history has a role other than user and model; [clearHistory],
    [addHistory] and [setHistory] return normally on every input and
    store what they are given, so they also accept a turn that the
    constructor rejects. *)
Theorem C8_constructor_validates_mutators_do_not :
  (forall cfg h,
      (exists c, In c h /\ role c <> Some "user" /\ role c <> Some "model")
      <-> exists e, GeminiChat_new cfg h = Throw e)
  /\ (forall chat,
         clearHistory chat = Ok {| config := config chat; history := [] |})
  /\ (forall c chat,
         addHistory c chat
         = Ok {| config := config chat; history := history chat ++ [c] |})
  /\ (forall h chat,
         setHistory h chat = Ok {| config := config chat; history := h |})
  /\ (forall c chat chat',
         role c <> Some "user" -> role c <> Some "model" ->
         addHistory c chat = Ok chat' ->
         exists e, GeminiChat_new (config chat') (history chat') = Throw e).
Proof.
  split; [|repeat split].
  - intros cfg h. rewrite <- validateHistory_throws. unfold GeminiChat_new.
    destruct (validateHistory h) as [[]|e].
    + split; intros [e He]; discriminate.
    + split; intros _; eauto.
  - intros c chat chat' Hu Hm [= <-]. simpl.
    assert (Hbad : exists d, In d (history chat ++ [c])
                     /\ role d <> Some "user" /\ role d <> Some "model").
    { exists c. split; [|auto]. apply in_or_app. right. now left. }
    apply validateHistory_throws in Hbad as [e He].
    exists e. unfold GeminiChat_new. now rewrite He.
Qed.

Lemma C8_constructor_validates_mutators_do_not_witness :
  exists e,
    GeminiChat_new sampleConfig [userTurn "hi"; systemTurn "be brief"] = Throw e.
Proof.
  apply (proj1 (proj1 C8_constructor_validates_mutators_do_not
                  sampleConfig [userTurn "hi"; systemTurn "be brief"])).
  exists (systemTurn "be brief").
  split; [right; left; reflexivity|].
  split; discriminate.
Defined.

(** ** [recordHistory]: placeholder and thought-only output *)

Section RecordHistoryFacts.

Variable isFunctionResponse : Content -> bool.






End RecordHistoryFacts.





(** ** Strings and array ends *)

Lemma sapp_cons x (a b : string) : String x a +:+ b = String x (a +:+ b).
Proof. reflexivity. Qed.

Lemma sapp_nil_l (a : string) : "" +:+ a = a.
Proof. reflexivity. Qed.

Lemma sapp_assoc (a b c : string) : (a +:+ b) +:+ c = a +:+ (b +:+ c).
Proof.
  induction a as [|x a IH]; [reflexivity|].
  rewrite !sapp_cons. now rewrite IH.
Qed.

Lemma sapp_nil_r (a : string) : a +:+ "" = a.
Proof.
  induction a as [|x a IH]; [reflexivity|].
  rewrite sapp_cons. now rewrite IH.
Qed.

Lemma partsText_app ps qs : partsText (ps ++ qs) = partsText ps +:+ partsText qs.
Proof.
  induction ps as [|p ps IH]; cbn [app partsText]; [reflexivity|].
  now rewrite IH, sapp_assoc.
Qed.

Lemma historyText_app h k : historyText (h ++ k) = historyText h +:+ historyText k.
Proof.
  induction h as [|c h IH]; cbn [app historyText]; [reflexivity|].
  now rewrite IH, sapp_assoc.
Qed.

Lemma last_entry_snoc {A} (l : list A) x : last_entry (l ++ [x]) = Some x.
Proof. apply last_snoc. Qed.

Lemma but_last_snoc {A} (l : list A) x : but_last (l ++ [x]) = l.
Proof.
  unfold but_last. apply take_app_length'.
  rewrite length_app. simpl. lia.
Qed.

Lemma last_entry_Some {A} (l : list A) x :
  last_entry l = Some x -> l = but_last l ++ [x].
Proof.
  destruct l as [|y l] using rev_ind; [discriminate|].
  rewrite last_entry_snoc, but_last_snoc. now intros [= ->].
Qed.

(** ** Merging text turns *)

Lemma isTextContent_shape c :
  isTextContent (Some c) = true ->
  exists p ps t,
    role c = Some "model" /\ parts c = Some (p :: ps)
    /\ text p = Some t /\ t <> "".
Proof.
  unfold isTextContent. rewrite andb_true_iff, role_is_true.
  intros [Hr Hp]. destruct (parts c) as [[|p ps]|]; try discriminate.
  unfold first_text_nonempty in Hp. destruct (text p) as [t|] eqn:Ht;
    [|discriminate].
  exists p, ps, t. repeat split; auto.
  intros ->. discriminate.
Qed.

Lemma mergeTextInto_shape a b :
  isTextContent (Some a) = true -> isTextContent (Some b) = true ->
  exists a0 arest ta b0 brest tb,
    parts a = Some (a0 :: arest) /\ text a0 = Some ta
    /\ parts b = Some (b0 :: brest) /\ text b0 = Some tb
    /\ mergeTextInto a b
       = {| role := role a;
            parts := Some (withText a0 (ta +:+ tb) :: arest ++ brest) |}.
Proof.
  intros Ha Hb.
  destruct (isTextContent_shape a Ha) as (a0 & arest & ta & _ & Epa & Eta & _).
  destruct (isTextContent_shape b Hb) as (b0 & brest & tb & _ & Epb & Etb & _).
  exists a0, arest, ta, b0, brest, tb. repeat split; auto.
  unfold mergeTextInto. now rewrite Epa, Epb, Eta, Etb.
Qed.

Lemma mergeTextInto_text a b :
  isTextContent (Some a) = true -> isTextContent (Some b) = true ->
  singlePart a = true ->
  turnText (mergeTextInto a b) = turnText a +:+ turnText b.
Proof.
  intros Ha Hb Hs.
  destruct (mergeTextInto_shape a b Ha Hb)
    as (a0 & arest & ta & b0 & brest & tb & Epa & Eta & Epb & Etb & ->).
  unfold singlePart in Hs. unfold turnText. rewrite Epa, Epb in *.
  destruct arest; [|discriminate]. simpl.
  unfold partText. simpl. rewrite Eta, Etb. simpl.
  now rewrite sapp_nil_r, sapp_assoc.
Qed.

Lemma mergeTextInto_single a b :
  isTextContent (Some a) = true -> isTextContent (Some b) = true ->
  singlePart a = true -> singlePart b = true ->
  singlePart (mergeTextInto a b) = true.
Proof.
  intros Ha Hb Hsa Hsb.
  destruct (mergeTextInto_shape a b Ha Hb)
    as (a0 & arest & ta & b0 & brest & tb & Epa & Eta & Epb & Etb & ->).
  unfold singlePart in *. rewrite Epa in Hsa. rewrite Epb in Hsb. simpl.
  destruct arest; [|discriminate]. now destruct brest.
Qed.

Lemma consolidate_text out : forall acc,
  noThoughtTurns out -> textTurnsSingle out -> textTurnsSingle acc ->
  historyText (consolidate out acc) = historyText acc +:+ historyText out
  /\ textTurnsSingle (consolidate out acc).
Proof.
  induction out as [|c out IH]; intros acc Hnt Hso Hsa;
    cbn [consolidate historyText].
  - now rewrite sapp_nil_r.
  - inversion Hnt as [|? ? Hc Hnt']; subst.
    inversion Hso as [|? ? Hcs Hso']; subst.
    rewrite Hc.
    assert (Hpush : historyText (consolidate out (acc ++ [c]))
                    = historyText acc +:+ turnText c +:+ historyText out
                    /\ textTurnsSingle (consolidate out (acc ++ [c]))).
    { destruct (IH (acc ++ [c])) as [E F]; auto.
      - apply Forall_app. split; [exact Hsa|]. now apply List.Forall_cons.
      - split; [|exact F]. rewrite E, historyText_app.
        cbn [historyText]. now rewrite sapp_nil_r, sapp_assoc. }
    destruct (last_entry acc) as [l|] eqn:Hl; [|exact Hpush].
    destruct (isTextContent (Some l)) eqn:Htl; [|exact Hpush].
    destruct (isTextContent (Some c)) eqn:Htc;
      [|rewrite andb_false_r; exact Hpush].
    cbn [andb].
    apply last_entry_Some in Hl.
    assert (Hsa' : textTurnsSingle (but_last acc) /\ singlePart l = true).
    { unfold textTurnsSingle in Hsa. rewrite Hl in Hsa.
      apply Forall_app in Hsa as [H1 H2]. split; [exact H1|].
      inversion H2; subst; auto. }
    destruct Hsa' as [Hbl Hls].
    destruct (IH (but_last acc ++ [mergeTextInto l c])) as [E F]; auto.
    + apply Forall_app. split; [exact Hbl|].
      apply List.Forall_cons; [|apply List.Forall_nil].
      intros _. apply mergeTextInto_single; auto.
    + split; [|exact F]. rewrite E. rewrite historyText_app.
      cbn [historyText].
      rewrite (mergeTextInto_text l c Htl Htc Hls).
      rewrite Hl at 2. rewrite historyText_app. cbn [historyText].
      now rewrite !sapp_nil_r, !sapp_assoc.
Qed.

Section RecordHistoryMerge.

Variable isFunctionResponse : Content -> bool.

Lemma isTextContent_has_role c :
  isTextContent (Some c) = true -> has_role c = true.
Proof.
  intros H. destruct (isTextContent_shape c H) as (_ & _ & _ & Hr & _).
  unfold has_role. now rewrite Hr.
Qed.

(** Two text turns in the new output become one. *)
Lemma recordHistory_merge_output h u a b afc :
  afc_present afc = false ->
  isTextContent (Some a) = true -> isTextContent (Some b) = true ->
  isThoughtContent (Some a) = false -> isThoughtContent (Some b) = false ->
  isTextContent (Some u) = false ->
  recordHistory isFunctionResponse h u [a; b] afc
  = Some (h ++ [u; mergeTextInto a b]).
Proof.
  intros Hafc Ha Hb Hna Hnb Hu.
  unfold recordHistory, outputContents_of. rewrite Hafc.
  cbn [List.filter]. rewrite Hna, Hnb. cbn [negb length Nat.eqb andb forallb].
  rewrite (isTextContent_has_role a Ha), (isTextContent_has_role b Hb).
  cbn [andb consolidate]. rewrite Hna, Hnb.
  cbn [last_entry last app]. rewrite Ha, Hb. cbn [andb consolidate].
  change (but_last [a]) with (@nil Content). cbn [app mbind option_bind].
  rewrite last_entry_snoc, Hu. cbn [negb andb].
  now rewrite <- app_assoc.
Qed.

(** A text turn of the new output joins the text turn that was pushed
    just before it. *)
Lemma recordHistory_merge_history h u b afc :
  afc_present afc = false ->
  isTextContent (Some u) = true -> isTextContent (Some b) = true ->
  isThoughtContent (Some b) = false ->
  recordHistory isFunctionResponse h u [b] afc
  = Some (h ++ [mergeTextInto u b]).
Proof.
  intros Hafc Hu Hb Hnb.
  unfold recordHistory, outputContents_of. rewrite Hafc.
  cbn [List.filter]. rewrite Hnb. cbn [negb length Nat.eqb andb forallb].
  rewrite (isTextContent_has_role b Hb).
  cbn [andb consolidate]. rewrite Hnb.
  cbn [last_entry last app consolidate mbind option_bind].
  rewrite last_entry_snoc, Hu, Hb. cbn [negb andb].
  now rewrite but_last_snoc.
Qed.

Lemma nonThought_noThoughtTurns out : noThoughtTurns (nonThought out).
Proof.
  unfold noThoughtTurns, nonThought.
  induction out as [|c out IH]; cbn [List.filter]; [apply List.Forall_nil|].
  destruct (isThoughtContent (Some c)) eqn:Hc; cbn [negb]; [exact IH|].
  now apply List.Forall_cons.
Qed.

Lemma nonThought_Forall (P : Content -> Prop) out :
  Forall P out -> Forall P (nonThought out).
Proof.
  unfold nonThought. induction 1 as [|c out Hc _ IH]; cbn [List.filter];
    [apply List.Forall_nil|].
  destruct (negb (isThoughtContent (Some c))); [|exact IH].
  now apply List.Forall_cons.
Qed.

Lemma outputContents_of_text u out :
  Forall (fun c => has_role c = true) out ->
  textTurnsSingle out ->
  historyText (outputContents_of isFunctionResponse u out)
  = historyText (nonThought out)
  /\ noThoughtTurns (outputContents_of isFunctionResponse u out)
  /\ textTurnsSingle (outputContents_of isFunctionResponse u out).
Proof.
  intros Hroles Hsingle. unfold outputContents_of.
  fold (nonThought out).
  pose proof (nonThought_noThoughtTurns out) as Hnt.
  pose proof (nonThought_Forall _ out Hroles) as Hr.
  pose proof (nonThought_Forall _ out Hsingle) as Hs.
  assert (Hfb : forallb has_role (nonThought out) = true).
  { apply forallb_forall. intros c Hc. rewrite Forall_forall in Hr.
    apply Hr. now apply list_elem_of_In. }
  rewrite Hfb, andb_true_r.
  destruct (nonThought out) as [|c nt] eqn:E; cbn [length Nat.eqb negb andb].
  - assert (Hempty : noThoughtTurns [emptyModelContent]
                     /\ textTurnsSingle [emptyModelContent]).
    { split; apply List.Forall_cons; try apply List.Forall_nil;
        [reflexivity | discriminate]. }
    destruct (negb (length out =? 0)); [auto|].
    destruct (negb (isFunctionResponse u)); [|auto].
    split; [reflexivity | exact Hempty].
  - auto.
Qed.

(** With no side-channel history and single-part text turns, the text of
    the history after [recordHistory] is the text before it, then the
    user input's, then the non-thought model output's, in that order. *)
Lemma recordHistory_text h u out afc h' :
  afc_present afc = false ->
  Forall (fun c => has_role c = true) out ->
  textTurnsSingle (u :: out) ->
  recordHistory isFunctionResponse h u out afc = Some h' ->
  historyText h'
  = historyText h +:+ turnText u +:+ historyText (nonThought out).
Proof.
  intros Hafc Hroles Hsingle. inversion Hsingle as [|? ? Hus Hos]; subst.
  destruct (outputContents_of_text u out Hroles Hos) as (Et & Hnt & Hss).
  destruct (consolidate_text _ [] Hnt Hss (List.Forall_nil _)) as [Ec Hcs].
  cbn [historyText] in Ec. rewrite sapp_nil_l, Et in Ec.
  unfold recordHistory. rewrite Hafc. cbn [mbind option_bind negb andb].
  destruct (consolidate (outputContents_of isFunctionResponse u out) [])
    as [|first others] eqn:Econs.
  - intros [= <-]. rewrite historyText_app. cbn [historyText] in *.
    now rewrite <- Ec, !sapp_nil_r.
  - rewrite last_entry_snoc.
    cbn [historyText] in Ec.
    destruct (isTextContent (Some u)) eqn:Htu; cbn [andb].
    + destruct (isTextContent (Some first)) eqn:Htf.
      * intros [= <-]. rewrite but_last_snoc.
        rewrite historyText_app. cbn [app historyText].
        rewrite (mergeTextInto_text u first Htu Htf (Hus eq_refl)).
        rewrite <- Ec. now rewrite !sapp_assoc.
      * intros [= <-]. rewrite !historyText_app. cbn [historyText].
        rewrite <- Ec. now rewrite !sapp_nil_r, !sapp_assoc.
    + intros [= <-]. rewrite !historyText_app. cbn [historyText].
      rewrite <- Ec. now rewrite !sapp_nil_r, !sapp_assoc.
Qed.

End RecordHistoryMerge.

(** C6, as stated, fails: when the turn merged into has a second text
    part, the new text lands between its first and its second part.
    Merging [A, B] with [C] gives a turn whose text reads ACB. *)
Lemma C6_merge_reorders_text :
  pureTextTurn (twoTextTurn "A" "B") = true
  /\ pureTextTurn (modelTurn "C") = true
  /\ recordHistory sample_isFunctionResponse [] (userTurn "q")
       [twoTextTurn "A" "B"; modelTurn "C"] None
     = Some [userTurn "q"; twoTextTurn "AC" "B"]
  /\ turnText (twoTextTurn "AC" "B") = "ACB"
  /\ turnText (twoTextTurn "A" "B") +:+ turnText (modelTurn "C") = "ABC"
  /\ turnText (twoTextTurn "AC" "B")
     <> turnText (twoTextTurn "A" "B") +:+ turnText (modelTurn "C").
Proof.
  repeat split; try reflexivity. discriminate.
Qed.

(** C6, amended: when [recordHistory] merges text turn [b] into the text
    turn [a] before it (two neighbours of the new output, or the first
    turn of the new output and the turn pushed just before it, with no
    side-channel history), the merged turn keeps [a]'s role, its first
    part carries [a]'s first text followed by [b]'s first text, and its
    other parts are [a]'s other parts followed by [b]'s; when [a] has a
    single part the merged turn's text is [a]'s text followed by [b]'s,
    and when all text turns have a single part the text of the history
    after the call is the old text, the user input's and the non-thought
    output's, in this order. *)
Theorem C6_merge_concatenates_text (isFunctionResponse : Content -> bool) :
  (forall a b,
      isTextContent (Some a) = true -> isTextContent (Some b) = true ->
      exists a0 arest ta b0 brest tb,
        parts a = Some (a0 :: arest) /\ text a0 = Some ta
        /\ parts b = Some (b0 :: brest) /\ text b0 = Some tb
        /\ mergeTextInto a b
           = {| role := role a;
                parts := Some (withText a0 (ta +:+ tb) :: arest ++ brest) |}
        /\ (singlePart a = true ->
            turnText (mergeTextInto a b) = turnText a +:+ turnText b))
  /\ (forall h u a b afc,
         afc_present afc = false ->
         isTextContent (Some a) = true -> isTextContent (Some b) = true ->
         isThoughtContent (Some a) = false ->
         isThoughtContent (Some b) = false ->
         isTextContent (Some u) = false ->
         recordHistory isFunctionResponse h u [a; b] afc
         = Some (h ++ [u; mergeTextInto a b]))
  /\ (forall h u b afc,
         afc_present afc = false ->
         isTextContent (Some u) = true -> isTextContent (Some b) = true ->
         isThoughtContent (Some b) = false ->
         recordHistory isFunctionResponse h u [b] afc
         = Some (h ++ [mergeTextInto u b]))
  /\ (forall h u out afc h',
         afc_present afc = false ->
         Forall (fun c => has_role c = true) out ->
         textTurnsSingle (u :: out) ->
         recordHistory isFunctionResponse h u out afc = Some h' ->
         historyText h'
         = historyText h +:+ turnText u +:+ historyText (nonThought out)).
Proof.
  split; [|split; [|split]].
  - intros a b Ha Hb.
    destruct (mergeTextInto_shape a b Ha Hb)
      as (a0 & arest & ta & b0 & brest & tb & Epa & Eta & Epb & Etb & E).
    exists a0, arest, ta, b0, brest, tb. repeat split; auto.
    intros Hs. now apply mergeTextInto_text.
  - intros. now apply recordHistory_merge_output.
  - intros. now apply recordHistory_merge_history.
  - intros h u out afc h'. apply recordHistory_text.
Qed.

Lemma C6_merge_concatenates_text_witness :
  recordHistory sample_isFunctionResponse [] (userTurn "q")
    [modelTurn "Hello, "; modelTurn "world"] None
  = Some [userTurn "q"; modelTurn "Hello, world"]
  /\ turnText (modelTurn "Hello, world")
     = turnText (modelTurn "Hello, ") +:+ turnText (modelTurn "world").
Proof.
  split.
  - apply (proj1 (proj2 (C6_merge_concatenates_text sample_isFunctionResponse))
             [] (userTurn "q") (modelTurn "Hello, ") (modelTurn "world") None);
      reflexivity.
  - reflexivity.
Defined.

(** ** Flash fallback *)

Section FlashFallbackFacts.

Variable LOGIN_WITH_GOOGLE : string.
Variable DEFAULT_GEMINI_FLASH_MODEL : string.
Variable flashFallbackHandler : option FallbackHandler.

#[local] Abbreviation fallback :=
  (handleFlashFallback LOGIN_WITH_GOOGLE DEFAULT_GEMINI_FLASH_MODEL).

Lemma authType_is_login_true a :
  authType_is_login LOGIN_WITH_GOOGLE a = true <-> a = Some LOGIN_WITH_GOOGLE.
Proof.
  unfold authType_is_login. destruct a as [s|]; [|split; discriminate].
  rewrite String.eqb_eq. split; congruence.
Qed.



Lemma fallback_answer error cfg f answer cfg' :
  flashFallbackHandler = Some f ->
  model cfg <> DEFAULT_GEMINI_FLASH_MODEL ->
  f (model cfg) DEFAULT_GEMINI_FLASH_MODEL error cfg = (Ok answer, cfg') ->
  fallback flashFallbackHandler (Some LOGIN_WITH_GOOGLE) error cfg
  = if accepted_answer answer
    then (Some DEFAULT_GEMINI_FLASH_MODEL,
          setFallbackMode true (setModel DEFAULT_GEMINI_FLASH_MODEL cfg'))
    else (None, cfg').
Proof.
  intros Hh Hm Hf. unfold handleFlashFallback.
  rewrite (proj2 (authType_is_login_true _) eq_refl). cbn [negb].
  apply String.eqb_neq in Hm. rewrite Hm, Hh, Hf.
  destruct (accepted_answer answer); [reflexivity|].
  now destruct (model cfg' =? DEFAULT_GEMINI_FLASH_MODEL)%string.
Qed.


End FlashFallbackFacts.





(** ** Error classification *)

Lemma prefix_spec needle : forall hay,
  String.prefix needle hay = true <-> exists post, hay = needle +:+ post.
Proof.
  induction needle as [|a needle IH]; intros hay.
  - split; [intros _; now exists hay | destruct hay; reflexivity].
  - destruct hay as [|b hay].
    + split; [discriminate | intros [post E]; discriminate].
    + cbn [String.prefix]. destruct (ascii_dec a b) as [->|Hne].
      * rewrite IH. split; intros [post E]; exists post.
        -- rewrite sapp_cons. now rewrite E.
        -- rewrite sapp_cons in E. now injection E.
      * split; [discriminate|]. intros [post E].
        rewrite sapp_cons in E. injection E as E1 _. congruence.
Qed.

Lemma includes_unfold hay needle :
  includes hay needle
  = String.prefix needle hay
    || match hay with
       | EmptyString => false
       | String _ rest => includes rest needle
       end.
Proof. destruct hay; reflexivity. Qed.

Lemma includes_spec hay needle :
  includes hay needle = true <-> contains hay needle.
Proof.
  unfold contains. split.
  - induction hay as [|c hay IH]; rewrite includes_unfold, orb_true_iff.
    + intros [H|H]; [|discriminate].
      apply prefix_spec in H as [post E]. now exists "", post.
    + intros [H|H].
      * apply prefix_spec in H as [post E]. now exists "", post.
      * destruct (IH H) as (pre & post & E).
        exists (String c pre), post. rewrite sapp_cons. now rewrite E.
  - intros (pre & post & E). revert hay E.
    induction pre as [|c pre IH]; intros hay E;
      rewrite includes_unfold, orb_true_iff.
    + left. apply prefix_spec. now exists post.
    + right. rewrite sapp_cons in E. subst hay. now apply IH.
Qed.




Lemma shouldRetry_bool cls message :
  shouldRetry (JsError cls message) = true <->
  includes message "429" || matches_5dd message = true
  /\ includes message "maximum schema depth exceeded" = false.
Proof.
  unfold shouldRetry, isSchemaDepthError.
  destruct (String.eqb_spec message "") as [->|Hne]; cbn [negb].
  - split; [discriminate | intros [H _]; discriminate H].
  - destruct (includes message "maximum schema depth exceeded"),
             (includes message "429"), (matches_5dd message);
      cbn [orb]; split; try discriminate; auto;
      intros [H1 H2]; discriminate.
Qed.


(** ** The retry loop of the non-streaming path *)

Section RetryFacts.

Context {R : Type}.
Variable LOGIN_WITH_GOOGLE : string.
Variable shouldRetry_cb : Thrown -> bool.
Variable onPersistent429 :
  option string -> option Thrown -> Config -> option string * Config.
Variable authType : option string.
Variable apiCall : nat -> Config -> Result R.

#[local] Abbreviation attempts :=
  (retry_attempts LOGIN_WITH_GOOGLE shouldRetry_cb onPersistent429
                  authType apiCall).



Lemma retry_success k n delay cfg delays r :
  apiCall n cfg = Ok r ->
  attempts k n delay cfg delays
  = {| rr_result := Ok r; rr_calls := S n;
       rr_delays := delays; rr_config := cfg |}.
Proof. intros Ha. destruct k; simpl; now rewrite Ha. Qed.

End RetryFacts.

(** ** What [createUserContent] accepts *)

Lemma toParts_elements_spec todo : forall acc,
  toParts_elements todo acc
  = if forallb isPart todo then Ok (acc ++ todo)
    else Throw (JsError PlainError
                  "element in PartUnion must be a Part object or string").
Proof.
  induction todo as [|p todo IH]; intros acc; cbn [toParts_elements forallb].
  - now rewrite app_nil_r.
  - destruct (isPart p); cbn [andb]; [|reflexivity].
    rewrite IH. now rewrite <- app_assoc.
Qed.

Lemma createUserContent_Ok message u :
  createUserContent message = Ok u <->
  u = {| role := Some "user"; parts := Some message |}
  /\ message <> [] /\ forallb isPart message = true.
Proof.
  unfold createUserContent, toParts. rewrite toParts_elements_spec.
  destruct message as [|p message]; cbn [length Nat.eqb app].
  - split; [discriminate | intros (_ & H & _); contradiction].
  - destruct (forallb isPart (p :: message)).
    + split; [intros [= <-]; repeat split; discriminate|].
      now intros (-> & _ & _).
    + split; [discriminate | intros (_ & _ & H); discriminate].
Qed.

Lemma createUserContent_Throw message e :
  createUserContent message = Throw e <->
  (message = []
   /\ e = JsError PlainError "partOrString cannot be an empty array")
  \/ (message <> [] /\ forallb isPart message = false
      /\ e = JsError PlainError
               "element in PartUnion must be a Part object or string").
Proof.
  unfold createUserContent, toParts. rewrite toParts_elements_spec.
  destruct message as [|p message]; cbn [length Nat.eqb app].
  - split; [intros [= <-]; now left|].
    intros [[_ ->]|(H & _)]; [reflexivity | contradiction].
  - destruct (forallb isPart (p :: message)).
    + split; [discriminate|].
      intros [[H _]|(_ & H & _)]; discriminate.
    + split; [intros [= <-]; right; repeat split; discriminate|].
      intros [[H _]|(_ & _ & ->)]; [discriminate | reflexivity].
Qed.

Lemma createUserContent_not_text message u :
  createUserContent message = Ok u -> isTextContent (Some u) = false.
Proof. intros H. apply createUserContent_Ok in H as (-> & _). reflexivity. Qed.

Lemma createUserContent_wellRoled message u :
  createUserContent message = Ok u -> role u = Some "user".
Proof. intros H. apply createUserContent_Ok in H as (-> & _). reflexivity. Qed.

Lemma recordHistory_single (isFunctionResponse : Content -> bool) h u c afc :
  afc_present afc = false ->
  isThoughtContent (Some c) = false -> has_role c = true ->
  isTextContent (Some u) = false ->
  recordHistory isFunctionResponse h u [c] afc = Some (h ++ [u; c]).
Proof.
  intros Hafc Hnt Hrole Hu.
  unfold recordHistory, outputContents_of. rewrite Hafc.
  cbn [List.filter]. rewrite Hnt. cbn [negb length Nat.eqb andb forallb].
  rewrite Hrole. cbn [andb consolidate]. rewrite Hnt.
  cbn [last_entry last app consolidate mbind option_bind].
  rewrite last_entry_snoc, Hu. cbn [negb andb].
  now rewrite <- app_assoc.
Qed.

Section RetryChains.

Context {R : Type}.
Variable LOGIN_WITH_GOOGLE : string.
Variable shouldRetry_cb : Thrown -> bool.
Variable onPersistent429 :
  option string -> option Thrown -> Config -> option string * Config.
Variable authType : option string.
Variable apiCall : nat -> Config -> Result R.

#[local] Abbreviation attemptsOf :=
  (retry_attempts LOGIN_WITH_GOOGLE shouldRetry_cb onPersistent429
                  authType apiCall).




End RetryChains.



Example shouldRetry_samples :
  shouldRetry (JsError PlainError "got status: 429 Too Many Requests") = true
  /\ shouldRetry (JsError PlainError "503 Service Unavailable") = true
  /\ shouldRetry (JsError PlainError "400 Bad Request") = false
  /\ shouldRetry
       (JsError PlainError "500: maximum schema depth exceeded") = false
  /\ shouldRetry (NonError "429") = false.
Proof. repeat split; reflexivity. Qed.

(** Five attempts, all rejected with a 429 under an API key: four delays,
    each twice the one before, then the error. *)
Example retry_backoff_sample :
  retryWithBackoff (R := unit) "oauth-personal" 5 100 shouldRetry
    (fun _ _ cfg => (None, cfg)) (Some "gemini-api-key")
    (fun _ _ => Throw error429) sampleConfig
  = {| rr_result := Throw error429; rr_calls := 5;
       rr_delays := [100; 200; 400; 800];
       rr_config := sampleConfig |}.
Proof. reflexivity. Qed.

(** ** The streaming path *)

Lemma processStream_chunks_invalid todo : forall ps invalid yielded,
  snd (fst (processStream_chunks todo ps invalid yielded))
  = invalid || existsb (fun chunk => negb (isValidResponse chunk)) todo.
Proof.
  induction todo as [|chunk todo IH]; intros ps invalid yielded;
    cbn [processStream_chunks existsb].
  - now rewrite orb_false_r.
  - destruct (isValidResponse chunk) eqn:Hv; cbn [negb orb].
    + destruct (first_candidate_content chunk) as [[r [p|]]|]; apply IH.
    + rewrite IH. now rewrite orb_true_r.
Qed.

(** A stream with an invalid chunk that ends normally makes the generator
    throw [EmptyStreamError] at the end of the drain, and the drain
    leaves the session as it found it. *)
Lemma drain_invalid_stream sd chat :
  breaks_with sd = None ->
  existsb (fun chunk => negb (isValidResponse chunk)) (chunks sd) = true ->
  dr_completion (drain (ProcessStreamResponse sd) chat)
  = Throw empty_stream_error
  /\ dr_chat (drain (ProcessStreamResponse sd) chat) = chat.
Proof.
  intros Hb Hinv. unfold drain.
  pose proof (processStream_chunks_invalid (chunks sd) [] false []) as Hflag.
  destruct (processStream_chunks (chunks sd) [] false [])
    as [[ps invalid] yielded].
  cbn [fst snd orb] in Hflag. rewrite Hinv in Hflag. subst invalid.
  rewrite Hb. split; reflexivity.
Qed.

(** Once [generateContentStream] has resolved, [sendMessageStream]
    returns the generator: whatever the drain brings happens after the
    retry loop has been left. *)
Lemma sendMessageStream_first_stream FLASH gen message chat userContent
    requestContents sd :
  createUserContent message = Ok userContent ->
  extractCuratedHistory (history chat ++ [userContent])
  = Some requestContents ->
  quotaErrorOccurred (config chat) && String.eqb (model (config chat)) FLASH
  = false ->
  gen 0 (model (config chat)) requestContents = Ok sd ->
  sendMessageStream FLASH gen message chat
  = Some {| ss_result := Ok (ProcessStreamResponse sd);
            ss_calls := 1; ss_delays := [];
            ss_chat := {| config := config chat;
                          history := history chat ++ [userContent] |} |}.
Proof.
  intros Hu Hc Hq Hg. unfold sendMessageStream. rewrite Hu, Hc.
  cbn [mbind option_bind MAX_RETRIES Nat.add sendMessageStream_attempts].
  unfold makeApiCallAndYieldStream. now rewrite Hq, Hg.
Qed.

(** When the call ends in a throw, the session is the one before the
    call: either nothing was pushed, or the user turn pushed at the
    start has been taken off again. *)
Lemma sendMessageStream_throw_rolls_back FLASH gen message chat r e :
  sendMessageStream FLASH gen message chat = Some r ->
  ss_result r = Throw e ->
  ss_chat r = chat.
Proof.
  unfold sendMessageStream.
  destruct (createUserContent message) as [u|e0]; [|now intros [= <-]].
  destruct (extractCuratedHistory _) as [rc|]; [|discriminate].
  cbn [mbind option_bind].
  destruct (sendMessageStream_attempts _ _ _ _ _ _ _ _)
    as [[[g|e'] calls] delays]; intros [= <-]; [discriminate|].
  intros _. cbn [ss_chat].
  rewrite last_entry_snoc, bool_decide_eq_true_2 by reflexivity.
  rewrite but_last_snoc. now destruct chat.
Qed.

Example sendMessageStream_rejected_requests :
  sendMessageStream "gemini-2.5-flash" rejectingGenerator
    [textPart "hi"] sampleChat
  = Some {| ss_result := Throw error429; ss_calls := 3;
            ss_delays := [500; 1000]; ss_chat := sampleChat |}.
Proof. reflexivity. Qed.

(** C2 at its failing input: the content generator answers the first
    request with a stream whose only chunk is an empty text.
    [sendMessageStream] returns the generator after that single request;
    draining it yields the chunk and then throws [EmptyStreamError]; no
    further request is made and the user turn stays in the history. *)
Theorem C2_invalid_stream_not_retried :
  sendMessageStream "gemini-2.5-flash" invalidStreamGenerator
    [textPart "hi"] sampleChat
  = Some {| ss_result := Ok (ProcessStreamResponse invalidStream);
            ss_calls := 1; ss_delays := [];
            ss_chat :=
              {| config := sampleConfig;
                 history := [userTurn "q"; modelTurn "a"; userTurn "hi"] |} |}
  /\ drain (ProcessStreamResponse invalidStream)
       {| config := sampleConfig;
          history := [userTurn "q"; modelTurn "a"; userTurn "hi"] |}
     = {| dr_yielded := [invalidChunk];
          dr_completion := Throw empty_stream_error;
          dr_chat :=
            {| config := sampleConfig;
               history := [userTurn "q"; modelTurn "a"; userTurn "hi"] |} |}
  /\ history sampleChat = [userTurn "q"; modelTurn "a"].
Proof. repeat split; reflexivity. Qed.

(** ** The planning tool *)

Section PlanningToolFacts.

Import PlanningTool.

Variable JSON_parse : string -> option Json.
Variable JSON_stringify_2 : Json -> string.

Lemma createPlan_goal vars raw :
  vars !! "execution_plan" = Some raw ->
  createPlan (Completes {| terminate_reason := GOAL; emitted_vars := vars |})
  = if String.eqb raw "" then None else Some raw.
Proof. intros H. cbn [createPlan is_GOAL terminate_reason emitted_vars]. now rewrite H. Qed.

Lemma execute_unparsable vars raw :
  vars !! "execution_plan" = Some raw ->
  raw <> "" ->
  JSON_parse raw = None ->
  execute JSON_parse JSON_stringify_2
    (Completes {| terminate_reason := GOAL; emitted_vars := vars |})
  = Ok (invalidJsonResult raw).
Proof.
  intros Hv Hne Hp. unfold execute. rewrite (createPlan_goal vars raw Hv).
  apply String.eqb_neq in Hne. now rewrite Hne, Hne, Hp.
Qed.

Lemma execute_empty_plan vars :
  vars !! "execution_plan" = Some "" ->
  execute JSON_parse JSON_stringify_2
    (Completes {| terminate_reason := GOAL; emitted_vars := vars |})
  = Ok failureResult.
Proof.
  intros Hv. unfold execute. now rewrite (createPlan_goal vars "" Hv).
Qed.

Lemma execute_never_throws run :
  exists r, execute JSON_parse JSON_stringify_2 run = Ok r.
Proof.
  unfold execute. destruct (createPlan run) as [raw|]; [|eauto].
  destruct (String.eqb raw ""); [eauto|].
  destruct (JSON_parse raw); eauto.
Qed.

End PlanningToolFacts.

(** C9, as stated, fails on the empty string: it does not parse as JSON,
    but [createPlan] turns it into [null], and [execute] then displays
    the failure message instead of the raw text. *)
Lemma C9_empty_plan_display :
  parseNullOnly "" = None
  /\ PlanningTool.execute parseNullOnly stringifyNullOnly (goalRun "")
     = Ok PlanningTool.failureResult
  /\ PlanningTool.returnDisplay PlanningTool.failureResult
     = "Failed to create a plan."
  /\ PlanningTool.returnDisplay PlanningTool.failureResult <> ""
  /\ (forall JSON_parse JSON_stringify_2,
         PlanningTool.execute JSON_parse JSON_stringify_2 (goalRun "")
         = Ok PlanningTool.failureResult).
Proof.
  split; [reflexivity|]. split; [reflexivity|]. split; [reflexivity|].
  split; [discriminate|].
  intros. apply execute_empty_plan. apply lookup_singleton_eq.
Qed.

(** C9, amended: when the planner ends with reason GOAL and the emitted
    execution plan does not parse as JSON, [execute] returns normally
    with a function response that reports failure; the display is the
    raw plan text when that text is not empty, and the failure message
    when it is. *)
Theorem C9_unparsable_plan
    (JSON_parse : string -> option PlanningTool.Json)
    (JSON_stringify_2 : PlanningTool.Json -> string)
    (vars : gmap string string) (raw : string) :
  vars !! "execution_plan" = Some raw ->
  JSON_parse raw = None ->
  exists r,
    PlanningTool.execute JSON_parse JSON_stringify_2
      (PlanningTool.Completes
         {| PlanningTool.terminate_reason := PlanningTool.GOAL;
            PlanningTool.emitted_vars := vars |})
    = Ok r
    /\ PlanningTool.reportsFailure r
    /\ (raw <> "" -> r = PlanningTool.invalidJsonResult raw
                     /\ PlanningTool.returnDisplay r = raw)
    /\ (raw = "" -> r = PlanningTool.failureResult).
Proof.
  intros Hv Hp. destruct (String.eqb_spec raw "") as [->|Hne].
  - exists PlanningTool.failureResult.
    rewrite (execute_empty_plan JSON_parse JSON_stringify_2 vars Hv).
    repeat split; try discriminate; try contradiction.
    repeat constructor.
  - exists (PlanningTool.invalidJsonResult raw).
    rewrite (execute_unparsable JSON_parse JSON_stringify_2 vars raw Hv Hne Hp).
    repeat split; try discriminate; try contradiction.
    repeat constructor.
Qed.

Lemma C9_unparsable_plan_witness :
  exists r,
    PlanningTool.execute parseNullOnly stringifyNullOnly
      (goalRun "not a valid json")
    = Ok r
    /\ PlanningTool.reportsFailure r
    /\ ("not a valid json" <> "" ->
        r = PlanningTool.invalidJsonResult "not a valid json"
        /\ PlanningTool.returnDisplay r = "not a valid json")
    /\ ("not a valid json" = "" -> r = PlanningTool.failureResult).
Proof.
  apply (C9_unparsable_plan parseNullOnly stringifyNullOnly
           {[ "execution_plan" := "not a valid json" ]} "not a valid json").
  - reflexivity.
  - reflexivity.
Defined.

Example execute_valid_plan :
  PlanningTool.execute parseNullOnly stringifyNullOnly (goalRun "null")
  = Ok {| PlanningTool.llmContent :=
            [{| PlanningTool.name := "planning_tool";
                PlanningTool.response :=
                  {| PlanningTool.success := true;
                     PlanningTool.error := None;
                     PlanningTool.plan := Some PlanningTool.JNull |} |}];
          PlanningTool.returnDisplay := "null" |}.
Proof. reflexivity. Qed.

(** * Further properties of the code *)

(** ** Curated history in one pass *)

Lemma curatedRuns_models run : forall pending valid rest,
  Forall (fun c => role_is c "model" = true) run ->
  curatedRuns pending valid (run ++ rest)
  = curatedRuns (pending ++ run) (valid && forallb isValidContent run) rest.
Proof.
  induction run as [|c run IH]; intros pending valid rest Hrun.
  - cbn [app forallb]. now rewrite app_nil_r, andb_true_r.
  - inversion Hrun as [|? ? Hc Hrun']; subst.
    cbn [app curatedRuns forallb]. rewrite Hc, IH by assumption.
    now rewrite <- app_assoc, andb_assoc.
Qed.

Lemma curatedRuns_flush pending valid rest :
  (forall c, head rest = Some c -> role_is c "model" = false) ->
  curatedRuns pending valid rest
  = (if valid then pending else []) ++ curatedRuns [] true rest.
Proof.
  intros Hhead. destruct rest as [|c rest]; cbn [curatedRuns].
  - now rewrite app_nil_r.
  - now rewrite (Hhead c eq_refl).
Qed.

Lemma extractCuratedHistory_loop_runs : forall n h acc,
  length h < n -> wellRoled h ->
  extractCuratedHistory_loop n h acc = Some (acc ++ curatedRuns [] true h).
Proof.
  induction n as [|n IH]; intros h acc Hn Hwr; [lia|].
  destruct h as [|c t]; cbn [extractCuratedHistory_loop].
  - cbn [curatedRuns]. now rewrite app_nil_r.
  - inversion Hwr as [|? ? Hc Ht]; subst.
    destruct (wellRoled_cases c Hc) as [[Hu Hm]|[Hu Hm]]; rewrite Hu.
    + rewrite IH by (simpl in Hn; auto with lia).
      cbn [curatedRuns]. rewrite Hm. cbn [app]. now rewrite <- app_assoc.
    + destruct (modelRun_spec (c :: t) [] true)
        as (run & rest & E & Hsplit & Hrun & Hrest).
      rewrite E. cbn [app andb].
      assert (Hwr' : wellRoled rest).
      { unfold wellRoled in *. rewrite Hsplit in Hwr.
        now apply Forall_app in Hwr as [_ ?]. }
      assert (Hlen : length rest < n).
      { assert (0 < length run).
        { destruct run as [|r run]; simpl; [|lia].
          simpl in Hsplit. subst rest.
          specialize (Hrest c eq_refl). congruence. }
        apply (f_equal (@length _)) in Hsplit.
        rewrite length_app in Hsplit. simpl in Hsplit, Hn. lia. }
      rewrite IH by assumption. rewrite Hsplit.
      rewrite (curatedRuns_models run [] true rest Hrun).
      cbn [app andb].
      rewrite (curatedRuns_flush run (forallb isValidContent run) rest Hrest).
      destruct (forallb isValidContent run); cbn [app];
        now rewrite <- ?app_assoc.
Qed.

Lemma extractCuratedHistory_runs h :
  wellRoled h -> extractCuratedHistory h = Some (curatedRuns [] true h).
Proof.
  intros Hwr. unfold extractCuratedHistory.
  now rewrite extractCuratedHistory_loop_runs by auto with lia.
Qed.

Lemma wellRoled_or_otherRole h : wellRoled h \/ Exists otherRole h.
Proof.
  induction h as [|c h [IH|IH]].
  - left. apply List.Forall_nil.
  - destruct (role_is c "user") eqn:Hu.
    + left. apply List.Forall_cons; [|exact IH].
      left. now apply role_is_true.
    + destruct (role_is c "model") eqn:Hm.
      * left. apply List.Forall_cons; [|exact IH].
        right. now apply role_is_true.
      * right. apply Exists_cons_hd. now split.
  - right. now apply Exists_cons_tl.
Qed.

Lemma otherRole_not_wellRoled h : Exists otherRole h -> ~ wellRoled h.
Proof.
  intros Hbad Hwr. apply Exists_exists in Hbad as (c & Hc & Hu & Hm).
  unfold wellRoled in Hwr. rewrite Forall_forall in Hwr.
  destruct (wellRoled_cases c (Hwr c Hc)) as [[? ?]|[? ?]]; congruence.
Qed.

Lemma extractCuratedHistory_otherRole h :
  Exists otherRole h -> extractCuratedHistory h = None.
Proof. intros H. now apply extractCuratedHistory_loop_diverges. Qed.

Lemma curatedRuns_Forall (P : Content -> Prop) h : forall pending valid,
  Forall P pending -> Forall P h -> Forall P (curatedRuns pending valid h).
Proof.
  induction h as [|c h IH]; intros pending valid Hp Hh; cbn [curatedRuns].
  - destruct valid; [exact Hp | apply List.Forall_nil].
  - inversion Hh as [|? ? Hc Hh']; subst.
    destruct (role_is c "model").
    + apply IH; [|exact Hh']. apply Forall_app. split; [exact Hp|].
      now apply List.Forall_cons.
    + apply Forall_app. split.
      * destruct valid; [exact Hp | apply List.Forall_nil].
      * apply List.Forall_cons; [exact Hc|].
        apply IH; [apply List.Forall_nil | exact Hh'].
Qed.

Lemma curatedRuns_valid_models h : forall pending valid,
  (valid = true -> Forall (fun c => isValidContent c = true) pending) ->
  Forall (fun c => role_is c "model" = true -> isValidContent c = true)
         (curatedRuns pending valid h).
Proof.
  assert (Hflush : forall pending valid,
    (valid = true -> Forall (fun c => isValidContent c = true) pending) ->
    Forall (fun c => role_is c "model" = true -> isValidContent c = true)
           (if valid then pending else [])).
  { intros pending [|] Hp; [|apply List.Forall_nil].
    eapply Forall_impl; [exact (Hp eq_refl)|]. auto. }
  induction h as [|c h IH]; intros pending valid Hp; cbn [curatedRuns].
  - now apply Hflush.
  - destruct (role_is c "model") eqn:Hm.
    + apply IH. intros Hv. apply andb_true_iff in Hv as [-> Hc].
      apply Forall_app. split; [now apply Hp|].
      apply List.Forall_cons; [exact Hc | apply List.Forall_nil].
    + apply Forall_app. split; [now apply Hflush|].
      apply List.Forall_cons; [congruence|].
      apply IH. intros _. apply List.Forall_nil.
Qed.

Lemma curatedRuns_sublist h : forall pending valid,
  curatedRuns pending valid h `sublist_of` pending ++ h.
Proof.
  assert (Hflush : forall (pending : list Content) (valid : bool),
            (if valid then pending else []) `sublist_of` pending).
  { intros pending [|]; [reflexivity | apply sublist_nil_l]. }
  induction h as [|c h IH]; intros pending valid; cbn [curatedRuns].
  - rewrite app_nil_r. apply Hflush.
  - destruct (role_is c "model").
    + specialize (IH (pending ++ [c]) (valid && isValidContent c)).
      now rewrite <- app_assoc in IH.
    + apply sublist_app; [apply Hflush|].
      apply sublist_skip. exact (IH [] true).
Qed.

Lemma curatedRuns_all_valid h : forall pending,
  Forall (fun c => role_is c "model" = true -> isValidContent c = true) h ->
  curatedRuns pending true h = pending ++ h.
Proof.
  induction h as [|c h IH]; intros pending Hh; cbn [curatedRuns].
  - now rewrite app_nil_r.
  - inversion Hh as [|? ? Hc Hh']; subst.
    destruct (role_is c "model") eqn:Hm.
    + rewrite (Hc eq_refl). cbn [andb]. rewrite IH by assumption.
      now rewrite <- app_assoc.
    + now rewrite (IH [] Hh').
Qed.

Lemma curatedRuns_app_at h1 : forall pending valid u h2,
  role_is u "model" = false ->
  curatedRuns pending valid (h1 ++ u :: h2)
  = curatedRuns pending valid h1 ++ u :: curatedRuns [] true h2.
Proof.
  induction h1 as [|c h1 IH]; intros pending valid u h2 Hu;
    cbn [app curatedRuns].
  - now rewrite Hu.
  - destruct (role_is c "model").
    + now apply IH.
    + rewrite (IH [] true u h2 Hu). now rewrite <- app_assoc.
Qed.

Lemma curatedRuns_idempotent h : forall pending valid,
  Forall (fun c => role_is c "model" = true) pending ->
  (valid = true -> Forall (fun c => isValidContent c = true) pending) ->
  curatedRuns [] true (curatedRuns pending valid h)
  = curatedRuns pending valid h.
Proof.
  assert (Hflush : forall pending valid rest,
    Forall (fun c => role_is c "model" = true) pending ->
    (valid = true -> Forall (fun c => isValidContent c = true) pending) ->
    (forall c, head rest = Some c -> role_is c "model" = false) ->
    curatedRuns [] true ((if valid then pending else []) ++ rest)
    = (if valid then pending else []) ++ curatedRuns [] true rest).
  { intros pending [|] rest Hm Hv Hhead; [|reflexivity].
    rewrite (curatedRuns_models pending [] true rest Hm). cbn [app andb].
    rewrite (curatedRuns_flush pending (forallb isValidContent pending)
               rest Hhead).
    specialize (Hv eq_refl).
    assert (E : forallb isValidContent pending = true).
    { apply forallb_forall. intros c Hc. rewrite Forall_forall in Hv.
      apply Hv. now apply list_elem_of_In. }
    now rewrite E. }
  induction h as [|c h IH]; intros pending valid Hm Hv; cbn [curatedRuns].
  - rewrite <- (app_nil_r (if valid then pending else [])) at 1.
    rewrite Hflush; auto; [|intros c; discriminate].
    cbn [curatedRuns]. now rewrite app_nil_r.
  - destruct (role_is c "model") eqn:Hc.
    + apply IH.
      * apply Forall_app. split; [exact Hm|].
        apply List.Forall_cons; [exact Hc | apply List.Forall_nil].
      * intros Hb. apply andb_true_iff in Hb as [-> Hcv].
        apply Forall_app. split; [now apply Hv|].
        apply List.Forall_cons; [exact Hcv | apply List.Forall_nil].
    + rewrite Hflush; auto; [|intros d [= <-]; exact Hc].
      cbn [curatedRuns]. rewrite Hc. cbn [app].
      rewrite (IH [] true); [reflexivity | apply List.Forall_nil|].
      intros _. apply List.Forall_nil.
Qed.

(** ** Curated history: termination, idempotence, shape *)

Lemma extractCuratedHistory_Some_wellRoled h r :
  extractCuratedHistory h = Some r -> wellRoled h.
Proof.
  intros Hr. destruct (wellRoled_or_otherRole h) as [Hwr|Hbad]; [exact Hwr|].
  rewrite (extractCuratedHistory_otherRole h Hbad) in Hr. discriminate.
Qed.

(** X1: [extractCuratedHistory] returns exactly on the histories whose
    turns all have role user or model; on any other history its loop
    never finishes, whatever the number of iterations allowed. *)
Theorem X1_curation_returns_iff_roles h :
  (wellRoled h <-> exists r, extractCuratedHistory h = Some r)
  /\ (~ wellRoled h ->
      forall fuel acc, extractCuratedHistory_loop fuel h acc = None).
Proof.
  split; [split|].
  - intros Hwr. eexists. now apply extractCuratedHistory_runs.
  - intros [r Hr]. now apply (extractCuratedHistory_Some_wellRoled h r).
  - intros Hn fuel acc. destruct (wellRoled_or_otherRole h) as [Hwr|Hbad];
      [contradiction|].
    now apply extractCuratedHistory_loop_diverges.
Qed.

(** X2: curating is idempotent: the curated history of a curated history
    is that history itself. *)
Theorem X2_curation_idempotent h r :
  extractCuratedHistory h = Some r -> extractCuratedHistory r = Some r.
Proof.
  intros Hr.
  pose proof (extractCuratedHistory_Some_wellRoled h r Hr) as Hwr.
  rewrite (extractCuratedHistory_runs h Hwr) in Hr. injection Hr as <-.
  rewrite extractCuratedHistory_runs.
  - f_equal. apply curatedRuns_idempotent; [apply List.Forall_nil|].
    intros _. apply List.Forall_nil.
  - apply curatedRuns_Forall; [apply List.Forall_nil | exact Hwr].
Qed.

Lemma X2_curation_idempotent_witness :
  extractCuratedHistory historyC3
  = Some [userTurn "q1"; userTurn "q2"; modelTurn "a2"; modelTurn "a3"]
  /\ extractCuratedHistory
       [userTurn "q1"; userTurn "q2"; modelTurn "a2"; modelTurn "a3"]
     = Some [userTurn "q1"; userTurn "q2"; modelTurn "a2"; modelTurn "a3"].
Proof.
  split; [reflexivity|].
  apply (X2_curation_idempotent historyC3). reflexivity.
Defined.

(** X3: the curated history is a subsequence of the comprehensive
    history, and every model turn in it is valid content: no invalid
    model turn is ever part of a request. *)
Theorem X3_curated_sublist_and_valid h r :
  extractCuratedHistory h = Some r ->
  r `sublist_of` h
  /\ Forall (fun c => role_is c "model" = true -> isValidContent c = true) r
  /\ length r <= length h.
Proof.
  intros Hr.
  pose proof (extractCuratedHistory_Some_wellRoled h r Hr) as Hwr.
  rewrite (extractCuratedHistory_runs h Hwr) in Hr. injection Hr as <-.
  pose proof (curatedRuns_sublist h [] true) as Hsub. cbn [app] in Hsub.
  split; [exact Hsub|]. split.
  - apply curatedRuns_valid_models. intros _. apply List.Forall_nil.
  - now apply sublist_length.
Qed.

Lemma X3_curated_sublist_and_valid_witness :
  [userTurn "q1"; userTurn "q2"; modelTurn "a2"; modelTurn "a3"]
    `sublist_of` historyC3
  /\ Forall (fun c => role_is c "model" = true -> isValidContent c = true)
            [userTurn "q1"; userTurn "q2"; modelTurn "a2"; modelTurn "a3"]
  /\ length [userTurn "q1"; userTurn "q2"; modelTurn "a2"; modelTurn "a3"]
     <= length historyC3.
Proof.
  apply (X3_curated_sublist_and_valid historyC3). reflexivity.
Defined.

(** X4: a history with roles user and model only and no invalid model
    turn is its own curated history. *)
Theorem X4_curation_fixes_valid_history h :
  wellRoled h ->
  Forall (fun c => role_is c "model" = true -> isValidContent c = true) h ->
  extractCuratedHistory h = Some h.
Proof.
  intros Hwr Hvalid. rewrite (extractCuratedHistory_runs h Hwr).
  now rewrite (curatedRuns_all_valid h [] Hvalid).
Qed.

Lemma X4_curation_fixes_valid_history_witness :
  extractCuratedHistory [userTurn "q"; modelTurn "a"; modelTurn "b"]
  = Some [userTurn "q"; modelTurn "a"; modelTurn "b"].
Proof.
  apply X4_curation_fixes_valid_history.
  - solve_wellRoled.
  - repeat (apply List.Forall_cons; [reflexivity|]). apply List.Forall_nil.
Defined.

(** X5: curating splits at every turn that is not a model turn: the
    curated history of [h1 ++ u :: h2] is that of [h1], then [u], then
    that of [h2].  So the request of the streaming path, curated after
    the user turn was pushed, has the contents the non-streaming path
    builds by appending the user turn to the curated history. *)
Theorem X5_curation_splits_at_user_turn h1 u h2 r1 r2 :
  role u = Some "user" ->
  extractCuratedHistory h1 = Some r1 ->
  extractCuratedHistory h2 = Some r2 ->
  extractCuratedHistory (h1 ++ u :: h2) = Some (r1 ++ u :: r2)
  /\ extractCuratedHistory (h1 ++ [u]) = Some (r1 ++ [u]).
Proof.
  intros Hu H1 H2.
  pose proof (extractCuratedHistory_Some_wellRoled h1 r1 H1) as Hw1.
  pose proof (extractCuratedHistory_Some_wellRoled h2 r2 H2) as Hw2.
  rewrite (extractCuratedHistory_runs h1 Hw1) in H1. injection H1 as <-.
  rewrite (extractCuratedHistory_runs h2 Hw2) in H2. injection H2 as <-.
  assert (Hum : role_is u "model" = false).
  { apply role_is_user_model. now apply role_is_true. }
  assert (Hwu : role u = Some "user" \/ role u = Some "model") by now left.
  split.
  - rewrite extractCuratedHistory_runs.
    + now rewrite curatedRuns_app_at.
    + apply Forall_app. split; [exact Hw1|]. now apply List.Forall_cons.
  - rewrite extractCuratedHistory_runs.
    + now rewrite curatedRuns_app_at.
    + apply Forall_app. split; [exact Hw1|].
      apply List.Forall_cons; [exact Hwu | apply List.Forall_nil].
Qed.

Lemma X5_curation_splits_at_user_turn_witness :
  extractCuratedHistory
    ([userTurn "q"; emptyModelContent] ++ userTurn "again" :: [modelTurn "a"])
  = Some ([userTurn "q"] ++ userTurn "again" :: [modelTurn "a"])
  /\ extractCuratedHistory ([userTurn "q"; emptyModelContent] ++ [userTurn "again"])
     = Some ([userTurn "q"] ++ [userTurn "again"]).
Proof.
  apply (X5_curation_splits_at_user_turn
           [userTurn "q"; emptyModelContent] (userTurn "again")
           [modelTurn "a"] [userTurn "q"] [modelTurn "a"]);
    reflexivity.
Defined.

(** X6: the mutators store a turn with another role without complaint,
    and from then on curating hangs: [getHistory(true)] never returns,
    and neither does [sendMessage] or [sendMessageStream] for any
    message that [createUserContent] accepts, while [getHistory(false)]
    still shows the stored history.  A message that [createUserContent]
    rejects makes both sends throw its error before they curate. *)
Theorem X6_other_role_hangs_later_sends
    (LOGIN FLASH : string) (handler : option FallbackHandler)
    (isFunctionResponse : Content -> bool) (maxAttempts initialDelayMs : nat)
    (generateContent :
       nat -> string -> list Content -> Result GenerateContentResponse)
    (generateContentStream :
       nat -> string -> list Content -> Result StreamData)
    (c : Content) (chat chat' : GeminiChat) (message : list Part) :
  role c <> Some "user" -> role c <> Some "model" ->
  addHistory c chat = Ok chat' ->
  getHistory false chat' = Some (history chat ++ [c])
  /\ getHistory true chat' = None
  /\ (forall userContent,
        createUserContent message = Ok userContent ->
        sendMessage LOGIN FLASH handler isFunctionResponse maxAttempts
          initialDelayMs generateContent message chat' = None
        /\ sendMessageStream FLASH generateContentStream message chat'
           = None)
  /\ (forall e,
        createUserContent message = Throw e ->
        sendMessage LOGIN FLASH handler isFunctionResponse maxAttempts
          initialDelayMs generateContent message chat'
        = Some (Throw e, chat')
        /\ sendMessageStream FLASH generateContentStream message chat'
           = Some {| ss_result := Throw e; ss_calls := 0; ss_delays := [];
                     ss_chat := chat' |}).
Proof.
  intros Hu Hm [= <-].
  assert (Hother : otherRole c).
  { split.
    - destruct (role_is c "user") eqn:E; [|reflexivity].
      now apply role_is_true in E.
    - destruct (role_is c "model") eqn:E; [|reflexivity].
      now apply role_is_true in E. }
  assert (Hbad : Exists otherRole (history chat ++ [c])).
  { apply Exists_app. right. now apply Exists_cons_hd. }
  split; [reflexivity|]. split; [|split].
  - cbn [getHistory history]. now apply extractCuratedHistory_otherRole.
  - intros userContent Hcreate. split.
    + unfold sendMessage. rewrite Hcreate. cbn [history].
      now rewrite (extractCuratedHistory_otherRole _ Hbad).
    + unfold sendMessageStream. rewrite Hcreate. cbn [history].
      rewrite extractCuratedHistory_otherRole; [reflexivity|].
      apply Exists_app. now left.
  - intros e Hcreate. split.
    + unfold sendMessage. now rewrite Hcreate.
    + unfold sendMessageStream. now rewrite Hcreate.
Qed.

Lemma X6_other_role_hangs_later_sends_witness :
  getHistory true
    {| config := sampleConfig;
       history := history sampleChat ++ [systemTurn "be brief"] |}
  = None
  /\ sendMessage "oauth-personal" "gemini-2.5-flash" None
       sample_isFunctionResponse 5 100
       (fun _ _ _ => Throw error429) [textPart "hi"]
       {| config := sampleConfig;
          history := history sampleChat ++ [systemTurn "be brief"] |}
     = None
  /\ sendMessageStream "gemini-2.5-flash" invalidStreamGenerator
       [textPart "hi"]
       {| config := sampleConfig;
          history := history sampleChat ++ [systemTurn "be brief"] |}
     = None.
Proof.
  destruct (X6_other_role_hangs_later_sends
              "oauth-personal" "gemini-2.5-flash"
              None sample_isFunctionResponse 5 100
              (fun _ _ _ => Throw error429) invalidStreamGenerator
              (systemTurn "be brief") sampleChat
              {| config := sampleConfig;
                 history := history sampleChat ++ [systemTurn "be brief"] |}
              [textPart "hi"])
    as (_ & Hget & Hsend & _);
    [discriminate | discriminate | reflexivity |].
  split; [exact Hget|]. exact (Hsend (userTurn "hi") eq_refl).
Defined.

(** ** [recordHistory]: what it leaves alone and what it drops *)

(** X7: [recordHistory] never touches the turns that were already in the
    history: the history before the call is a prefix of the history
    after it (a merge only rewrites the user input pushed by the same
    call). *)
Theorem X7_recordHistory_keeps_earlier_turns
    (isFunctionResponse : Content -> bool) h u out afc h' :
  recordHistory isFunctionResponse h u out afc = Some h' ->
  h `prefix_of` h'.
Proof.
  unfold recordHistory.
  destruct (afc_present afc) eqn:Hafc.
  - destruct (extractCuratedHistory (default [] afc)) as [cur|];
      [|discriminate].
    cbn [mbind option_bind negb andb].
    destruct (consolidate _ []) as [|first others].
    + intros [= <-]. now apply prefix_app_r.
    + destruct (last_entry (h ++ cur)); intros [= <-];
        rewrite <- app_assoc; now apply prefix_app_r.
  - cbn [mbind option_bind negb andb].
    destruct (consolidate _ []) as [|first others].
    + intros [= <-]. now apply prefix_app_r.
    + rewrite last_entry_snoc.
      destruct (isTextContent (Some u) && isTextContent (Some first));
        intros [= <-].
      * rewrite but_last_snoc. now apply prefix_app_r.
      * rewrite <- app_assoc. now apply prefix_app_r.
Qed.

Lemma X7_recordHistory_keeps_earlier_turns_witness :
  [userTurn "q"; modelTurn "a"]
    `prefix_of` [userTurn "q"; modelTurn "a"; modelTurn "Hello, world"].
Proof.
  apply (X7_recordHistory_keeps_earlier_turns sample_isFunctionResponse
           [userTurn "q"; modelTurn "a"] (modelTurn "Hello, ")
           [modelTurn "world"] None).
  reflexivity.
Defined.

Lemma nonThought_In c out :
  In c out -> isThoughtContent (Some c) = false -> In c (nonThought out).
Proof.
  intros Hin Hc. unfold nonThought. apply filter_In. split; [exact Hin|].
  now rewrite Hc.
Qed.

(** X8: when one non-thought turn of the model output has no role, the
    whole model output is discarded: with a user input that is not a
    function response and no side-channel history, only the user turn
    and the empty placeholder are appended. *)
Theorem X8_roleless_output_is_discarded
    (isFunctionResponse : Content -> bool) h u out afc c :
  In c out -> isThoughtContent (Some c) = false -> role c = None ->
  isFunctionResponse u = false ->
  afc_present afc = false ->
  recordHistory isFunctionResponse h u out afc
  = Some (h ++ [u; emptyModelContent]).
Proof.
  intros Hin Hnt Hrole Hfr Hafc.
  assert (Hout : outputContents_of isFunctionResponse u out
                 = [emptyModelContent]).
  { unfold outputContents_of. fold (nonThought out).
    pose proof (nonThought_In c out Hin Hnt) as Hc.
    assert (Hroles : forallb has_role (nonThought out) = false).
    { destruct (forallb has_role (nonThought out)) eqn:E; [|reflexivity].
      rewrite forallb_forall in E. specialize (E c Hc).
      unfold has_role in E. now rewrite Hrole in E. }
    rewrite Hroles, andb_false_r.
    destruct (nonThought out) as [|d nt]; [destruct Hc|].
    cbn [length Nat.eqb andb]. now rewrite Hfr. }
  unfold recordHistory. rewrite Hout, Hafc.
  change (consolidate [emptyModelContent] []) with [emptyModelContent].
  cbn [mbind option_bind negb andb].
  rewrite last_entry_snoc.
  change (isTextContent (Some emptyModelContent)) with false.
  rewrite andb_false_r. now rewrite <- app_assoc.
Qed.

Lemma X8_roleless_output_is_discarded_witness :
  recordHistory sample_isFunctionResponse [] (userTurn "q")
    [modelTurn "kept?"; rolelessTurn "lost"] None
  = Some ([] ++ [userTurn "q"; emptyModelContent]).
Proof.
  apply (X8_roleless_output_is_discarded sample_isFunctionResponse
           [] (userTurn "q") [modelTurn "kept?"; rolelessTurn "lost"] None
           (rolelessTurn "lost"));
    [right; left; reflexivity | reflexivity..].
Defined.

(** X9: when the user input is a function response and the model output
    is empty, no placeholder is appended: the history grows by the user
    turn alone (or by the spliced side-channel turns alone). *)
Theorem X9_function_response_gets_no_placeholder
    (isFunctionResponse : Content -> bool) h u afc :
  isFunctionResponse u = true ->
  (afc_present afc = false ->
   recordHistory isFunctionResponse h u [] afc = Some (h ++ [u]))
  /\ (afc_present afc = true ->
      recordHistory isFunctionResponse h u [] afc
      = (curated ← extractCuratedHistory (default [] afc);
         Some (h ++ curated))).
Proof.
  intros Hfr.
  assert (Hout : outputContents_of isFunctionResponse u [] = []).
  { unfold outputContents_of. simpl. now rewrite Hfr. }
  unfold recordHistory. rewrite Hout. split; intros ->.
  - reflexivity.
  - now destruct (extractCuratedHistory (default [] afc)).
Qed.

Lemma X9_function_response_gets_no_placeholder_witness :
  recordHistory sample_isFunctionResponse [userTurn "q"]
    (functionResponseTurn "ls" "ok") [] None
  = Some ([userTurn "q"] ++ [functionResponseTurn "ls" "ok"]).
Proof.
  apply (proj1 (X9_function_response_gets_no_placeholder
                  sample_isFunctionResponse [userTurn "q"]
                  (functionResponseTurn "ls" "ok") None eq_refl)).
  reflexivity.
Defined.

(** ** The consolidation loop *)

Lemma textAdjacent_snoc l c :
  textAdjacent (l ++ [c])
  = textAdjacent l || (isTextContent (last l) && isTextContent (Some c)).
Proof.
  induction l as [|a l IH].
  - cbn [app textAdjacent head last].
    change (isTextContent None) with false.
    now rewrite andb_false_r.
  - cbn [app textAdjacent]. rewrite IH. destruct l as [|b l].
    + cbn [app head last textAdjacent].
      change (isTextContent None) with false.
      now rewrite !andb_false_r, !orb_false_r.
    + cbn [app head]. change (last (a :: b :: l)) with (last (b :: l)).
      now rewrite orb_assoc.
Qed.

Lemma mergeTextInto_isText a b :
  isTextContent (Some a) = true -> isTextContent (Some b) = true ->
  isTextContent (Some (mergeTextInto a b)) = true.
Proof.
  intros Ha Hb.
  destruct (isTextContent_shape a Ha) as (p & ps & t & Hr & Hp & Ht & Hne).
  destruct (mergeTextInto_shape a b Ha Hb)
    as (a0 & arest & ta & b0 & brest & tb & Epa & Eta & _ & _ & ->).
  rewrite Hp in Epa. injection Epa as <- <-.
  rewrite Ht in Eta. injection Eta as <-.
  unfold isTextContent, role_is. cbn [role parts]. rewrite Hr.
  destruct t as [|x t]; [contradiction|]. reflexivity.
Qed.

Lemma mergeTextInto_isThought a b :
  isTextContent (Some a) = true -> isTextContent (Some b) = true ->
  isThoughtContent (Some (mergeTextInto a b)) = isThoughtContent (Some a).
Proof.
  intros Ha Hb.
  destruct (mergeTextInto_shape a b Ha Hb)
    as (a0 & arest & ta & b0 & brest & tb & Epa & Eta & _ & _ & ->).
  unfold isThoughtContent, role_is. cbn [role parts]. now rewrite Epa.
Qed.

Lemma consolidate_invariant out : forall acc,
  textAdjacent acc = false -> noThoughtTurns acc ->
  textAdjacent (consolidate out acc) = false
  /\ noThoughtTurns (consolidate out acc).
Proof.
  induction out as [|c out IH]; intros acc Hadj Hnt; cbn [consolidate].
  - now split.
  - destruct (isThoughtContent (Some c)) eqn:Hc; [now apply IH|].
    assert (Hpush : noThoughtTurns (acc ++ [c])).
    { apply Forall_app. split; [exact Hnt|].
      apply List.Forall_cons; [exact Hc | apply List.Forall_nil]. }
    destruct (last_entry acc) as [l|] eqn:Hl.
    + pose proof (last_entry_Some acc l Hl) as Eacc.
      destruct (isTextContent (Some l) && isTextContent (Some c)) eqn:Hboth.
      * apply andb_true_iff in Hboth as [Htl Htc].
        rewrite Eacc in Hadj, Hnt. rewrite textAdjacent_snoc in Hadj.
        apply orb_false_iff in Hadj as [Hbl Hlast].
        rewrite Htl, andb_true_r in Hlast.
        apply Forall_app in Hnt as [Hntb Hntl].
        apply IH.
        -- rewrite textAdjacent_snoc, Hbl, Hlast. reflexivity.
        -- apply Forall_app. split; [exact Hntb|].
           apply List.Forall_cons; [|apply List.Forall_nil].
           rewrite (mergeTextInto_isThought l c Htl Htc).
           now inversion Hntl.
      * apply IH; [|exact Hpush].
        rewrite textAdjacent_snoc, Hadj.
        unfold last_entry in Hl. now rewrite Hl, Hboth.
    + apply IH; [|exact Hpush].
      rewrite textAdjacent_snoc, Hadj.
      unfold last_entry in Hl. rewrite Hl. reflexivity.
Qed.

(** X10: the consolidation loop of [recordHistory] returns a list in
    which no two neighbours are both text turns, and which holds no
    thought turn, whatever the output handed to it. *)
Theorem X10_consolidate_separates_text_turns out :
  textAdjacent (consolidate out []) = false
  /\ noThoughtTurns (consolidate out [])
  /\ length (consolidate out []) <= length out.
Proof.
  destruct (consolidate_invariant out [] eq_refl (List.Forall_nil _))
    as [H1 H2].
  split; [exact H1|]. split; [exact H2|].
  assert (Hlen : forall o acc, 
            length (consolidate o acc) <= length acc + length o).
  { induction o as [|c o IHo]; intros acc; cbn [consolidate length];
      [lia|].
    destruct (isThoughtContent (Some c)); [specialize (IHo acc); lia|].
    destruct (last_entry acc) as [l|] eqn:Hl.
    - destruct (isTextContent (Some l) && isTextContent (Some c)).
      + specialize (IHo (but_last acc ++ [mergeTextInto l c])).
        apply last_entry_Some in Hl.
        apply (f_equal (@length _)) in Hl.
        rewrite length_app in Hl, IHo. simpl in Hl, IHo. lia.
      + specialize (IHo (acc ++ [c])). rewrite length_app in IHo.
        simpl in IHo. lia.
    - specialize (IHo (acc ++ [c])). rewrite length_app in IHo.
      simpl in IHo. lia. }
  exact (Hlen out []).
Qed.

(** ** Draining a stream *)

Lemma processStream_chunks_spec todo : forall ps invalid yielded,
  processStream_chunks todo ps invalid yielded
  = (ps ++ concat (map chunkParts (List.filter isValidResponse todo)),
     invalid || existsb (fun chunk => negb (isValidResponse chunk)) todo,
     yielded ++ todo).
Proof.
  induction todo as [|chunk todo IH]; intros ps invalid yielded;
    cbn [processStream_chunks List.filter existsb map concat].
  - now rewrite !app_nil_r, orb_false_r.
  - destruct (isValidResponse chunk) eqn:Hv; cbn [negb orb map concat].
    + unfold chunkParts.
      destruct (first_candidate_content chunk) as [[r [p|]]|];
        rewrite IH; cbn [parts default app];
        now rewrite <- ?app_assoc, ?app_nil_r.
    + rewrite IH. now rewrite orb_true_r, <- app_assoc.
Qed.

Lemma filter_all_valid (todo : list GenerateContentResponse) :
  existsb (fun chunk => negb (isValidResponse chunk)) todo = false ->
  List.filter isValidResponse todo = todo.
Proof.
  induction todo as [|chunk todo IH]; cbn [existsb List.filter];
    [reflexivity|].
  destruct (isValidResponse chunk); cbn [negb orb]; [|discriminate].
  intros H. now rewrite IH.
Qed.

(** The model turn assembled from a stream. *)
Lemma drain_unfold sd chat :
  drain (ProcessStreamResponse sd) chat
  = match breaks_with sd with
    | Some e =>
        {| dr_yielded := chunks sd; dr_completion := Throw e; dr_chat := chat |}
    | None =>
        if existsb (fun chunk => negb (isValidResponse chunk)) (chunks sd)
        then {| dr_yielded := chunks sd;
                dr_completion := Throw empty_stream_error; dr_chat := chat |}
        else {| dr_yielded := chunks sd; dr_completion := Ok tt;
                dr_chat :=
                  {| config := config chat;
                     history :=
                       history chat
                       ++ [{| role := Some "model";
                              parts := Some (concat (map chunkParts
                                                       (chunks sd))) |}] |} |}
    end.
Proof.
  unfold drain. rewrite processStream_chunks_spec. cbn [app orb].
  destruct (breaks_with sd); [reflexivity|].
  destruct (existsb _ (chunks sd)) eqn:E; [reflexivity|].
  now rewrite (filter_all_valid (chunks sd) E).
Qed.

(** X11: a drain hands every chunk of the stream to the consumer, in the
    order of arrival, whether or not the chunks are valid and whether or
    not the stream breaks off. *)
Theorem X11_drain_yields_every_chunk sd chat :
  dr_yielded (drain (ProcessStreamResponse sd) chat) = chunks sd.
Proof.
  rewrite drain_unfold. destruct (breaks_with sd); [reflexivity|].
  now destruct (existsb _ (chunks sd)).
Qed.

(** X12: a drain changes the history all or nothing.  It completes
    exactly when the stream ends normally and every chunk is a valid
    response, and then appends one model turn whose parts are the parts
    of the chunks in order; when it throws (the stream's own error, or
    [EmptyStreamError] for an invalid chunk) the session is untouched. *)
Theorem X12_drain_all_or_nothing sd chat :
  (dr_completion (drain (ProcessStreamResponse sd) chat) = Ok tt
   <-> breaks_with sd = None
       /\ forallb isValidResponse (chunks sd) = true)
  /\ (dr_completion (drain (ProcessStreamResponse sd) chat) = Ok tt ->
      dr_chat (drain (ProcessStreamResponse sd) chat)
      = {| config := config chat;
           history :=
             history chat
             ++ [{| role := Some "model";
                    parts := Some (concat (map chunkParts (chunks sd))) |}] |})
  /\ (forall e,
         dr_completion (drain (ProcessStreamResponse sd) chat) = Throw e ->
         dr_chat (drain (ProcessStreamResponse sd) chat) = chat
         /\ (e = empty_stream_error \/ breaks_with sd = Some e)).
Proof.
  rewrite drain_unfold.
  assert (Hex : existsb (fun chunk => negb (isValidResponse chunk)) (chunks sd)
                = negb (forallb isValidResponse (chunks sd))).
  { induction (chunks sd) as [|c l IH]; cbn [existsb forallb];
      [reflexivity|]. rewrite IH. now destruct (isValidResponse c). }
  rewrite Hex.
  destruct (breaks_with sd) as [e0|].
  - cbn [dr_completion dr_chat]. split; [|split].
    + split; [discriminate | intros [? _]; discriminate].
    + discriminate.
    + intros e [= <-]. auto.
  - destruct (forallb isValidResponse (chunks sd));
      cbn [negb dr_completion dr_chat].
    + split; [|split].
      * split; auto.
      * reflexivity.
      * intros e. discriminate.
    + split; [|split].
      * split; [discriminate | intros [_ ?]; discriminate].
      * discriminate.
      * intros e [= <-]. auto.
Qed.

Lemma isValidContent_parts_app ps qs :
  isValidContent_parts (ps ++ qs)
  = isValidContent_parts ps && isValidContent_parts qs.
Proof.
  induction ps as [|p ps IH]; cbn [app isValidContent_parts]; [reflexivity|].
  destruct (Object_keys_length p =? 0); [reflexivity|].
  destruct (negb (thought_truthy p) && text_is_empty_string p);
    [reflexivity | exact IH].
Qed.

Lemma isValidResponse_chunkParts chunk :
  isValidResponse chunk = true ->
  chunkParts chunk <> [] /\ isValidContent_parts (chunkParts chunk) = true.
Proof.
  unfold isValidResponse, chunkParts, first_candidate_content.
  destruct (candidates chunk) as [[|c0 cs]|]; try discriminate.
  destruct (content c0) as [c|]; [|discriminate].
  unfold isValidContent. destruct (parts c) as [[|p ps]|]; try discriminate.
  cbn [length Nat.eqb default]. intros H. split; [discriminate | exact H].
Qed.

Lemma assembled_parts_valid (l : list GenerateContentResponse) :
  forallb isValidResponse l = true ->
  isValidContent_parts (concat (map chunkParts l)) = true
  /\ (l <> [] -> concat (map chunkParts l) <> []).
Proof.
  induction l as [|chunk l IH]; cbn [forallb map concat].
  - intros _. split; [reflexivity | contradiction].
  - intros H. apply andb_true_iff in H as [Hc Hl].
    destruct (isValidResponse_chunkParts chunk Hc) as [Hne Hv].
    destruct (IH Hl) as [IHv _]. split.
    + now rewrite isValidContent_parts_app, Hv, IHv.
    + intros _ E. apply app_eq_nil in E as [E _]. contradiction.
Qed.

(** X13: the model turn a completed drain appends is valid content as
    soon as the stream had a chunk, so the next request carries it; a
    stream that ends without any chunk is recorded as the empty model
    turn, which curation drops. *)
Theorem X13_assembled_turn_valid_iff_chunks sd :
  breaks_with sd = None ->
  forallb isValidResponse (chunks sd) = true ->
  isValidContent {| role := Some "model";
                    parts := Some (concat (map chunkParts (chunks sd))) |}
  = negb (Nat.eqb (length (chunks sd)) 0)
  /\ (chunks sd = [] ->
      forall chat,
        history (dr_chat (drain (ProcessStreamResponse sd) chat))
        = history chat ++ [emptyModelContent]).
Proof.
  intros Hb Hv. destruct (assembled_parts_valid (chunks sd) Hv) as [Hp Hne].
  split.
  - unfold isValidContent. cbn [parts].
    destruct (chunks sd) as [|c l] eqn:E.
    + reflexivity.
    + rewrite <- E in *. assert (Hn : chunks sd <> []) by now rewrite E.
      specialize (Hne Hn). rewrite Hp.
      destruct (concat (map chunkParts (chunks sd))); [contradiction|].
      rewrite E. reflexivity.
  - intros E chat. rewrite drain_unfold, Hb, E. reflexivity.
Qed.

Lemma X13_assembled_turn_valid_iff_chunks_witness :
  isValidContent
    {| role := Some "model";
       parts := Some (concat (map chunkParts (chunks helloStream))) |}
  = negb (Nat.eqb (length (chunks helloStream)) 0)
  /\ (chunks helloStream = [] ->
      forall chat,
        history (dr_chat (drain (ProcessStreamResponse helloStream) chat))
        = history chat ++ [emptyModelContent]).
Proof.
  apply (X13_assembled_turn_valid_iff_chunks helloStream); reflexivity.
Defined.

(** ** The attempts of [sendMessageStream] *)

Section StreamAttemptFacts.

Variable DEFAULT_GEMINI_FLASH_MODEL : string.
Variable generateContentStream :
  nat -> string -> list Content -> Result StreamData.

#[local] Abbreviation attemptsFrom :=
  (sendMessageStream_attempts DEFAULT_GEMINI_FLASH_MODEL generateContentStream).
#[local] Abbreviation request :=
  (makeApiCallAndYieldStream DEFAULT_GEMINI_FLASH_MODEL generateContentStream).

(** One turn of the loop, for an attempt that fails. *)
Lemma attempts_step remaining attempt rc cfg lastError delays error :
  request rc attempt cfg = Throw error ->
  attemptsFrom (S remaining) attempt rc cfg lastError delays
  = if streamRetryable error && (attempt <? MAX_RETRIES)
    then attemptsFrom remaining (S attempt) rc cfg error
           (delays ++ [500 * (attempt + 1)])
    else (Throw error, S attempt, delays).
Proof.
  intros Hr. cbn [sendMessageStream_attempts]. rewrite Hr.
  reflexivity.
Qed.



End StreamAttemptFacts.



(** X15: whatever the content generator does, [sendMessageStream] leaves
    the configuration alone; when it throws, the history is the one
    before the call (the optimistic user turn is taken off again, or was
    never pushed); when it returns a generator, [createUserContent] has
    accepted the message and the history is the old one followed by the
    user turn, whose parts are the message. *)
Theorem X15_stream_send_history
    (FLASH : string)
    (generateContentStream :
       nat -> string -> list Content -> Result StreamData)
    message chat r :
  sendMessageStream FLASH generateContentStream message chat = Some r ->
  config (ss_chat r) = config chat
  /\ (forall e, ss_result r = Throw e -> ss_chat r = chat)
  /\ (forall g, ss_result r = Ok g ->
        createUserContent message
        = Ok {| role := Some "user"; parts := Some message |}
        /\ history (ss_chat r)
           = history chat
             ++ [{| role := Some "user"; parts := Some message |}]).
Proof.
  intros Hr. split; [|split].
  - revert Hr. unfold sendMessageStream.
    destruct (createUserContent message) as [u|e0]; [|now intros [= <-]].
    destruct (extractCuratedHistory _) as [rc|]; [|discriminate].
    cbn [mbind option_bind].
    destruct (sendMessageStream_attempts _ _ _ _ _ _ _ _)
      as [[[g|e] calls] delays]; now intros [= <-].
  - intros e He.
    exact (sendMessageStream_throw_rolls_back FLASH generateContentStream
             message chat r e Hr He).
  - revert Hr. unfold sendMessageStream.
    destruct (createUserContent message) as [u|e0] eqn:Hu;
      [|intros [= <-] g; discriminate].
    apply createUserContent_Ok in Hu as (-> & _ & _).
    destruct (extractCuratedHistory _) as [rc|]; [|discriminate].
    cbn [mbind option_bind].
    destruct (sendMessageStream_attempts _ _ _ _ _ _ _ _)
      as [[[g|e] calls] delays]; intros [= <-] g' Hg;
      [split; reflexivity | discriminate].
Qed.

Lemma X15_stream_send_history_witness :
  config sampleChat = config sampleChat
  /\ (forall e, @Throw StreamGenerator error429 = Throw e ->
        sampleChat = sampleChat)
  /\ (forall g, @Throw StreamGenerator error429 = Ok g ->
        createUserContent [textPart "hi"]
        = Ok {| role := Some "user"; parts := Some [textPart "hi"] |}
        /\ history sampleChat
           = history sampleChat
             ++ [{| role := Some "user"; parts := Some [textPart "hi"] |}]).
Proof.
  apply (X15_stream_send_history "gemini-2.5-flash" rejectingGenerator
           [textPart "hi"] sampleChat
           {| ss_result := Throw error429; ss_calls := 3;
              ss_delays := [500; 1000]; ss_chat := sampleChat |}).
  reflexivity.
Defined.

(** X16: while the quota-error flag is set and the session's model is
    the Flash model, no request reaches the content generator.  For a
    session whose history has only user and model turns and a message
    that [createUserContent] accepts, the streaming send throws the
    "submit a new query" error after one attempt, without a delay, and
    leaves the session as it was.  The request closure of the
    non-streaming send throws the same error whatever the request, and
    [shouldRetry] rejects that error. *)
Theorem X16_quota_guard_blocks_requests
    (FLASH : string)
    (generateContentStream :
       nat -> string -> list Content -> Result StreamData)
    (generateContent :
       nat -> string -> list Content -> Result GenerateContentResponse)
    message userContent chat :
  quotaErrorOccurred (config chat) = true ->
  model (config chat) = FLASH ->
  wellRoled (history chat) ->
  createUserContent message = Ok userContent ->
  sendMessageStream FLASH generateContentStream message chat
  = Some {| ss_result := Throw (JsError PlainError quota_error_message);
            ss_calls := 1; ss_delays := []; ss_chat := chat |}
  /\ (forall rc n,
         sendMessage_apiCall FLASH generateContent rc n (config chat)
         = Throw (JsError PlainError quota_error_message))
  /\ shouldRetry (JsError PlainError quota_error_message) = false.
Proof.
  intros Hq Hm Hwr Hu. split; [|split].
  - unfold sendMessageStream. rewrite Hu.
    assert (Hwr' : wellRoled (history chat ++ [userContent])).
    { apply Forall_app. split; [exact Hwr|].
      apply List.Forall_cons; [|apply List.Forall_nil].
      left. exact (createUserContent_wellRoled message userContent Hu). }
    rewrite (extractCuratedHistory_runs _ Hwr'). cbn [mbind option_bind].
    change (MAX_RETRIES + 1) with 3.
    rewrite (attempts_step FLASH generateContentStream _ _ _ _ _ _
               (JsError PlainError quota_error_message)).
    + change (streamRetryable (JsError PlainError quota_error_message))
        with false.
      cbn [andb]. rewrite last_entry_snoc, bool_decide_eq_true_2 by reflexivity.
      rewrite but_last_snoc. now destruct chat.
    + unfold makeApiCallAndYieldStream.
      now rewrite Hq, Hm, String.eqb_refl.
  - intros rc n. unfold sendMessage_apiCall. rewrite Hq, Hm.
    destruct (String.eqb FLASH ""); now rewrite String.eqb_refl.
  - reflexivity.
Qed.

Lemma X16_quota_guard_blocks_requests_witness :
  sendMessageStream "gemini-2.5-flash" invalidStreamGenerator
    [textPart "hi"] quotaChat
  = Some {| ss_result := Throw (JsError PlainError quota_error_message);
            ss_calls := 1; ss_delays := []; ss_chat := quotaChat |}.
Proof.
  apply (X16_quota_guard_blocks_requests "gemini-2.5-flash"
           invalidStreamGenerator (fun _ _ _ => Throw error429)
           [textPart "hi"] (userTurn "hi") quotaChat);
    [reflexivity | reflexivity | solve_wellRoled | reflexivity].
Defined.

(** X17: the retry test of the streaming loop accepts every error that
    [shouldRetry] accepts; what it accepts beyond that is an
    [EmptyStreamError], or a 429/5xx message that is a schema-depth
    error.  A failed attempt below the cap goes on exactly when the test
    accepts its error. *)
Theorem X17_stream_retry_test_is_wider
    (FLASH : string)
    (generateContentStream :
       nat -> string -> list Content -> Result StreamData) :
  (forall e, shouldRetry e = true -> streamRetryable e = true)
  /\ (forall e, streamRetryable e = true -> shouldRetry e = false ->
        isEmptyStreamError e = true
        \/ isSchemaDepthError (errorMessage_of e) = true)
  /\ (forall remaining attempt rc cfg lastError delays error,
         makeApiCallAndYieldStream FLASH generateContentStream rc attempt cfg
         = Throw error ->
         attempt < MAX_RETRIES ->
         sendMessageStream_attempts FLASH generateContentStream
           (S remaining) attempt rc cfg lastError delays
         = if streamRetryable error
           then sendMessageStream_attempts FLASH generateContentStream
                  remaining (S attempt) rc cfg error
                  (delays ++ [500 * (attempt + 1)])
           else (Throw error, S attempt, delays)).
Proof.
  split; [|split].
  - intros [cls message|v]; [|discriminate].
    rewrite shouldRetry_bool. intros [H _].
    unfold streamRetryable. cbn [errorMessage_of]. now rewrite H.
  - intros [cls message|v].
    + unfold streamRetryable. cbn [errorMessage_of]. intros Hs Hn.
      destruct (isEmptyStreamError (JsError cls message)); [now left|].
      right. rewrite orb_false_r in Hs.
      destruct (isSchemaDepthError message) eqn:Hd; [reflexivity|].
      rewrite (proj2 (shouldRetry_bool cls message) (conj Hs Hd)) in Hn.
      discriminate.
    + discriminate.
  - intros remaining attempt rc cfg lastError delays error Hr Hlt.
    rewrite (attempts_step FLASH generateContentStream _ _ _ _ _ _ error Hr).
    apply Nat.ltb_lt in Hlt. now rewrite Hlt, andb_true_r.
Qed.

(** ** A successful [sendMessage] *)

(** X18: for a message that [createUserContent] accepts, when the first
    request of [sendMessage] succeeds with a response that has no
    side-channel history and whose first candidate carries a content
    that has a role and is not thought content, the response is returned
    and the history grows by exactly the user turn and that content; the
    configuration is unchanged. *)
Theorem X18_sendMessage_records_exchange
    (LOGIN FLASH : string) (handler : option FallbackHandler)
    (isFunctionResponse : Content -> bool) (maxAttempts initialDelayMs : nat)
    (generateContent :
       nat -> string -> list Content -> Result GenerateContentResponse)
    message userContent chat curated response c :
  createUserContent message = Ok userContent ->
  extractCuratedHistory (history chat) = Some curated ->
  sendMessage_apiCall FLASH generateContent
    (curated ++ [userContent]) 0 (config chat)
  = Ok response ->
  automaticFunctionCallingHistory response = None ->
  first_candidate_content response = Some c ->
  isThoughtContent (Some c) = false -> has_role c = true ->
  sendMessage LOGIN FLASH handler isFunctionResponse maxAttempts
    initialDelayMs generateContent message chat
  = Some (Ok response,
          {| config := config chat;
             history := history chat ++ [userContent; c] |}).
Proof.
  intros Hu Hc Ha Hafc Hfirst Hnt Hrole.
  unfold sendMessage. rewrite Hu, Hc. cbn [mbind option_bind].
  unfold sendMessage_request, retryWithBackoff.
  rewrite (retry_success LOGIN shouldRetry _ _ _ _ _ _ _ _ response Ha).
  cbn [rr_result rr_config]. rewrite Hafc, Hfirst.
  rewrite (recordHistory_single isFunctionResponse (history chat)
             userContent c (Some []) eq_refl Hnt Hrole
             (createUserContent_not_text message userContent Hu)).
  reflexivity.
Qed.

Lemma X18_sendMessage_records_exchange_witness :
  sendMessage "oauth-personal" "gemini-2.5-flash" None
    sample_isFunctionResponse 5 100
    (fun _ _ _ => Ok (responseWith (modelTurn "fine")))
    [textPart "how are you"] sampleChat
  = Some (Ok (responseWith (modelTurn "fine")),
          {| config := config sampleChat;
             history := history sampleChat
                        ++ [userTurn "how are you"; modelTurn "fine"] |}).
Proof.
  apply (X18_sendMessage_records_exchange "oauth-personal" "gemini-2.5-flash"
           None sample_isFunctionResponse 5 100
           (fun _ _ _ => Ok (responseWith (modelTurn "fine")))
           [textPart "how are you"] (userTurn "how are you") sampleChat
           [userTurn "q"; modelTurn "a"]);
    reflexivity.
Defined.

(** ** The schema-depth hint *)

Lemma contains_app_r hay needle suffix :
  contains hay needle -> contains (hay +:+ suffix) needle.
Proof.
  intros (pre & post & ->). exists pre, (post +:+ suffix).
  now rewrite !sapp_assoc.
Qed.

Lemma contains_app_l hay needle prefix :
  contains hay needle -> contains (prefix +:+ hay) needle.
Proof.
  intros (pre & post & ->). exists (prefix +:+ pre), post.
  now rewrite !sapp_assoc.
Qed.

Lemma contains_refl s : contains s s.
Proof. exists "", "". now rewrite sapp_nil_r. Qed.

Lemma join_contains sep items x :
  In x items -> contains (join sep items) x.
Proof.
  induction items as [|y items IH]; [intros H; destruct H|].
  intros [->|Hin]; cbn [join].
  - destruct items; [apply contains_refl|].
    apply contains_app_r, contains_refl.
  - destruct items as [|z items]; [destruct Hin|].
    apply contains_app_l, contains_app_l. now apply IH.
Qed.

Section SchemaDepthFacts.

Variable Schema : Type.
Variable hasCycleInSchema : Schema -> bool.

#[local] Abbreviation toolIsCyclic :=
  (toolHasCyclicSchema Schema hasCycleInSchema).

Lemma cyclicSchemaTools_of_In tools tool :
  In tool tools -> toolIsCyclic tool = true ->
  In (displayName tool) (cyclicSchemaTools_of Schema hasCycleInSchema tools).
Proof.
  unfold toolHasCyclicSchema.
  induction tools as [|t tools IH]; [intros H; destruct H|].
  intros [->|Hin] Hc; cbn [cyclicSchemaTools_of].
  - rewrite Hc. apply in_eq.
  - destruct (schema_has_cycle _ _ (parametersJsonSchema (schema t)) || _);
      [apply in_cons|]; now apply IH.
Qed.

Lemma cyclicSchemaTools_of_nil tools :
  cyclicSchemaTools_of Schema hasCycleInSchema tools = [] <->
  forall tool, In tool tools -> toolIsCyclic tool = false.
Proof.
  unfold toolHasCyclicSchema. induction tools as [|t tools IH];
    cbn [cyclicSchemaTools_of].
  - split; [intros _ tool [] | reflexivity].
  - destruct (_ || _) eqn:E.
    + split; [discriminate|]. intros H.
      rewrite (H t (or_introl eq_refl)) in E. discriminate.
    + rewrite IH. split.
      * intros H tool [<-|Hin]; [exact E | now apply H].
      * intros H tool Hin. apply H. now right.
Qed.

Lemma cyclicSchemaTools_of_cons tools name names :
  cyclicSchemaTools_of Schema hasCycleInSchema tools = name :: names ->
  exists tool, In tool tools /\ toolIsCyclic tool = true.
Proof.
  unfold toolHasCyclicSchema. induction tools as [|t tools IH];
    cbn [cyclicSchemaTools_of]; [discriminate|].
  destruct (_ || _) eqn:E.
  - intros _. exists t. split; [now left | exact E].
  - intros H. destruct (IH H) as (tool & Hin & Hc).
    exists tool. split; [now right | exact Hc].
Qed.

Lemma hint_unfold tools message :
  maybeIncludeSchemaDepthContext Schema hasCycleInSchema tools message
  = if (isSchemaDepthError message || isInvalidArgumentError message)
       && negb (Nat.eqb
                  (length (cyclicSchemaTools_of Schema hasCycleInSchema tools))
                  0)
    then message
         +:+ (schemaDepthHint
              +:+ join (LF +:+ " - ")
                       (cyclicSchemaTools_of Schema hasCycleInSchema tools)
              +:+ LF)
    else message.
Proof.
  unfold maybeIncludeSchemaDepthContext.
  destruct (isSchemaDepthError message || isInvalidArgumentError message);
    [|reflexivity].
  now destruct (negb _).
Qed.

End SchemaDepthFacts.

(** X19: [maybeIncludeSchemaDepthContext] leaves the message alone
    unless it is a schema-depth or invalid-argument error and some
    registered tool has a cyclic schema; otherwise it appends a hint to
    the unchanged message, and the hint names every tool with a cyclic
    schema. *)
Theorem X19_schema_hint_names_cyclic_tools
    (Schema : Type) (hasCycleInSchema : Schema -> bool)
    (tools : list (RegisteredTool Schema)) (message : string) :
  (maybeIncludeSchemaDepthContext Schema hasCycleInSchema tools message
   <> message ->
   (isSchemaDepthError message = true
    \/ isInvalidArgumentError message = true)
   /\ exists tool, In tool tools
                   /\ toolHasCyclicSchema Schema hasCycleInSchema tool = true)
  /\ (exists suffix,
         maybeIncludeSchemaDepthContext Schema hasCycleInSchema tools message
         = message +:+ suffix)
  /\ (isSchemaDepthError message = true
      \/ isInvalidArgumentError message = true ->
      forall tool,
        In tool tools -> toolHasCyclicSchema Schema hasCycleInSchema tool = true ->
        exists suffix,
          maybeIncludeSchemaDepthContext Schema hasCycleInSchema tools message
          = message +:+ suffix
          /\ contains suffix (displayName tool)).
Proof.
  rewrite hint_unfold. split; [|split].
  - destruct (isSchemaDepthError message || isInvalidArgumentError message)
      eqn:Hk; cbn [andb]; [|contradiction].
    destruct (cyclicSchemaTools_of Schema hasCycleInSchema tools) as [|n ns]
      eqn:Hn; cbn [length Nat.eqb negb]; [contradiction|].
    intros _. split; [now apply orb_true_iff|].
    exact (cyclicSchemaTools_of_cons Schema hasCycleInSchema tools n ns Hn).
  - destruct (_ && _); [eauto|]. exists "". now rewrite sapp_nil_r.
  - intros Hk tool Hin Hc.
    apply orb_true_iff in Hk. rewrite Hk. cbn [andb].
    pose proof (cyclicSchemaTools_of_In Schema hasCycleInSchema tools tool
                  Hin Hc) as Hname.
    destruct (cyclicSchemaTools_of Schema hasCycleInSchema tools) as [|n ns]
      eqn:Hn; [destruct Hname|].
    cbn [length Nat.eqb negb]. eexists. split; [reflexivity|].
    apply contains_app_l, contains_app_r. now apply join_contains.
Qed.

(** X20: the hint does not change how the error is classified: whatever
    substring the message contained it still contains, so a schema-depth
    error stays a schema-depth error and [shouldRetry] keeps rejecting
    it after the hint was added. *)
Theorem X20_schema_hint_keeps_classification
    (Schema : Type) (hasCycleInSchema : Schema -> bool)
    (tools : list (RegisteredTool Schema)) (message : string) :
  (forall needle,
      includes message needle = true ->
      includes (maybeIncludeSchemaDepthContext Schema hasCycleInSchema
                  tools message) needle = true)
  /\ (isSchemaDepthError message = true ->
      forall cls,
        shouldRetry
          (JsError cls (maybeIncludeSchemaDepthContext Schema hasCycleInSchema
                          tools message)) = false).
Proof.
  assert (Hkeep : forall needle,
            includes message needle = true ->
            includes (maybeIncludeSchemaDepthContext Schema hasCycleInSchema
                        tools message) needle = true).
  { intros needle H. rewrite hint_unfold.
    destruct (_ && _); [|exact H].
    apply includes_spec, contains_app_r. now apply includes_spec. }
  split; [exact Hkeep|].
  intros Hd cls.
  destruct (shouldRetry (JsError cls _)) eqn:E; [|reflexivity].
  apply shouldRetry_bool in E as [_ E].
  unfold isSchemaDepthError in Hd. rewrite (Hkeep _ Hd) in E. discriminate.
Qed.

(** ** The planning tool: when it fails and when it succeeds *)

Lemma createPlan_None run :
  PlanningTool.createPlan run = None <-> ~ exists plan, yieldsPlan run plan.
Proof.
  unfold yieldsPlan. destruct run as [e|e|[reason vars]];
    cbn [PlanningTool.createPlan PlanningTool.terminate_reason
         PlanningTool.emitted_vars].
  - split; [|reflexivity]. intros _ (plan & vars & E & _). discriminate.
  - split; [|reflexivity]. intros _ (plan & vars & E & _). discriminate.
  - destruct reason; cbn [PlanningTool.is_GOAL];
      try (split; [|reflexivity];
           intros _ (plan & vars' & E & _); discriminate).
    destruct (vars !! "execution_plan") as [s|] eqn:Hv.
    + destruct (String.eqb_spec s "") as [->|Hne].
      * split; [|reflexivity].
        intros _ (plan & vars' & [= <-] & Hp & Hne).
        rewrite Hv in Hp. injection Hp as <-. contradiction.
      * split; [discriminate|]. intros H. destruct H.
        exists s, vars. auto.
    + split; [|reflexivity].
      intros _ (plan & vars' & [= <-] & Hp & _). congruence.
Qed.

Lemma createPlan_Some run plan :
  PlanningTool.createPlan run = Some plan <-> yieldsPlan run plan.
Proof.
  unfold yieldsPlan. split.
  - destruct run as [e|e|[reason vars]];
      cbn [PlanningTool.createPlan PlanningTool.terminate_reason
           PlanningTool.emitted_vars]; try discriminate.
    destruct reason; cbn [PlanningTool.is_GOAL]; try discriminate.
    destruct (vars !! "execution_plan") as [s|] eqn:Hv; [|discriminate].
    destruct (String.eqb_spec s "") as [->|Hne]; [discriminate|].
    intros [= <-]. exists vars. auto.
  - intros (vars & -> & Hv & Hne).
    cbn [PlanningTool.createPlan PlanningTool.terminate_reason
         PlanningTool.emitted_vars PlanningTool.is_GOAL].
    rewrite Hv. apply String.eqb_neq in Hne. now rewrite Hne.
Qed.

(** X21: [execute] returns the "Failed to create a plan." result exactly
    when the planner run yields no usable plan: creating or running the
    sub-agent threw, or it ended with a reason other than GOAL, or the
    [execution_plan] variable is missing or empty. *)
Theorem X21_planning_failure_iff_no_plan
    (JSON_parse : string -> option PlanningTool.Json)
    (JSON_stringify_2 : PlanningTool.Json -> string)
    (run : PlanningTool.PlannerRun) :
  PlanningTool.execute JSON_parse JSON_stringify_2 run
  = Ok PlanningTool.failureResult
  <-> ~ exists plan, yieldsPlan run plan.
Proof.
  rewrite <- createPlan_None. unfold PlanningTool.execute.
  destruct (PlanningTool.createPlan run) as [plan|] eqn:Hp.
  - split; [|discriminate].
    apply createPlan_Some in Hp as (vars & _ & _ & Hne).
    apply String.eqb_neq in Hne. rewrite Hne.
    destruct (JSON_parse plan); intros [= E]; discriminate.
  - split; reflexivity.
Qed.

(** X22: [execute] reports success exactly when the planner run yields a
    plan that [JSON.parse] accepts; the function response then carries
    the parsed plan and the display is its formatted form.  A plan that
    is not accepted gives the "Invalid JSON response" result with the
    raw text as display. *)
Theorem X22_planning_success_iff_parsable
    (JSON_parse : string -> option PlanningTool.Json)
    (JSON_stringify_2 : PlanningTool.Json -> string)
    (run : PlanningTool.PlannerRun) (plan : string) :
  yieldsPlan run plan ->
  (forall parsedPlan,
      JSON_parse plan = Some parsedPlan ->
      PlanningTool.execute JSON_parse JSON_stringify_2 run
      = Ok (planSuccessResult parsedPlan (JSON_stringify_2 parsedPlan)))
  /\ (JSON_parse plan = None ->
      PlanningTool.execute JSON_parse JSON_stringify_2 run
      = Ok (PlanningTool.invalidJsonResult plan))
  /\ (forall r,
         PlanningTool.execute JSON_parse JSON_stringify_2 run = Ok r ->
         (Exists (fun p => PlanningTool.success (PlanningTool.response p)
                           = true)
                 (PlanningTool.llmContent r)
          <-> exists parsedPlan, JSON_parse plan = Some parsedPlan)).
Proof.
  intros Hy. pose proof (proj2 (createPlan_Some run plan) Hy) as Hc.
  destruct Hy as (vars & _ & _ & Hne). apply String.eqb_neq in Hne.
  unfold PlanningTool.execute. rewrite Hc, Hne.
  destruct (JSON_parse plan) as [j|].
  - split; [|split].
    + now intros parsedPlan [= <-].
    + discriminate.
    + intros r [= <-]. split; [eauto|]. intros _.
      apply Exists_cons_hd. reflexivity.
  - split; [|split].
    + discriminate.
    + reflexivity.
    + intros r [= <-]. split.
      * intros H. apply Exists_cons in H as [H|H]; [discriminate|].
        inversion H.
      * intros [j Hj]. discriminate.
Qed.

Lemma X22_planning_success_iff_parsable_witness :
  PlanningTool.execute parseNullOnly stringifyNullOnly (goalRun "null")
  = Ok (planSuccessResult PlanningTool.JNull "null").
Proof.
  apply (proj1 (X22_planning_success_iff_parsable parseNullOnly
                  stringifyNullOnly (goalRun "null") "null"
                  ltac:(exists {[ "execution_plan" := "null" ]};
                        split; [reflexivity|];
                        split; [reflexivity | discriminate]))
           PlanningTool.JNull).
  reflexivity.
Defined.

(** ** The Flash fallback: when it returns a model *)

(** X23: [handleFlashFallback] returns a model id exactly when the auth
    type is the Google login, the current model is not the Flash model,
    a handler is registered, returns normally and answers something
    other than [false] and [null]; the id is then the Flash model's and
    the configuration is the handler's with the model and the fallback
    mode set.  In every other case it returns [null] and sets
    nothing. *)
Theorem X23_fallback_returns_model_iff
    (LOGIN FLASH : string) (handler : option FallbackHandler)
    authType error cfg m cfg' :
  handleFlashFallback LOGIN FLASH handler authType error cfg = (Some m, cfg')
  <-> m = FLASH
      /\ authType = Some LOGIN
      /\ model cfg <> FLASH
      /\ exists f answer cfg1,
           handler = Some f
           /\ f (model cfg) FLASH error cfg = (Ok answer, cfg1)
           /\ accepted_answer answer = true
           /\ cfg' = setFallbackMode true (setModel FLASH cfg1).
Proof.
  split.
  - unfold handleFlashFallback.
    destruct (authType_is_login LOGIN authType) eqn:Ea;
      cbn [negb]; [|discriminate].
    apply authType_is_login_true in Ea.
    destruct (model cfg =? FLASH)%string eqn:Em; [discriminate|].
    apply String.eqb_neq in Em.
    destruct handler as [f|]; [|discriminate].
    destruct (f (model cfg) FLASH error cfg) as [[answer|e] cfg1] eqn:Ef;
      [|discriminate].
    destruct (accepted_answer answer) eqn:Eacc.
    + intros [= <- <-]. repeat split; auto. exists f, answer, cfg1. auto.
    + destruct (model cfg1 =? FLASH)%string; discriminate.
  - intros (-> & -> & Hm & f & answer & cfg1 & Hh & Hf & Hacc & ->).
    rewrite (fallback_answer LOGIN FLASH handler error cfg f answer cfg1
               Hh Hm Hf).
    now rewrite Hacc.
Qed.

(** ** [sendMessage] with a side-channel history *)

Lemma recordHistory_single_spliced
    (isFunctionResponse : Content -> bool) h u c trace curatedTrace :
  trace <> [] ->
  extractCuratedHistory trace = Some curatedTrace ->
  isThoughtContent (Some c) = false -> has_role c = true ->
  recordHistory isFunctionResponse h u [c] (Some trace)
  = Some (h ++ curatedTrace ++ [c]).
Proof.
  intros Hne Hcur Hnt Hrole.
  unfold recordHistory, outputContents_of.
  assert (Hafc : afc_present (Some trace) = true)
    by (destruct trace; [contradiction | reflexivity]).
  rewrite Hafc. change (default [] (Some trace)) with trace. rewrite Hcur.
  cbn [List.filter]. rewrite Hnt. cbn [negb length Nat.eqb andb forallb].
  rewrite Hrole. cbn [andb consolidate]. rewrite Hnt.
  cbn [last_entry last app consolidate mbind option_bind negb andb].
  destruct (last_entry (h ++ curatedTrace)); now rewrite <- app_assoc.
Qed.

(** X24: for a message that [createUserContent] accepts, when the
    response of [sendMessage] carries a side-channel history that
    repeats the request's curated history and continues with a trace,
    the repeated part is cut off and the curated trace takes the place
    of the user turn: the history grows by the curated trace and the
    model content.  A side-channel history no longer than the curated
    history counts as none. *)
Theorem X24_sendMessage_splices_trace
    (LOGIN FLASH : string) (handler : option FallbackHandler)
    (isFunctionResponse : Content -> bool) (maxAttempts initialDelayMs : nat)
    (generateContent :
       nat -> string -> list Content -> Result GenerateContentResponse)
    message userContent chat curated response c :
  createUserContent message = Ok userContent ->
  extractCuratedHistory (history chat) = Some curated ->
  sendMessage_apiCall FLASH generateContent
    (curated ++ [userContent]) 0 (config chat)
  = Ok response ->
  first_candidate_content response = Some c ->
  isThoughtContent (Some c) = false -> has_role c = true ->
  (forall trace curatedTrace,
      automaticFunctionCallingHistory response = Some (curated ++ trace) ->
      trace <> [] ->
      extractCuratedHistory trace = Some curatedTrace ->
      sendMessage LOGIN FLASH handler isFunctionResponse maxAttempts
        initialDelayMs generateContent message chat
      = Some (Ok response,
              {| config := config chat;
                 history := history chat ++ curatedTrace ++ [c] |}))
  /\ (forall full,
         automaticFunctionCallingHistory response = Some full ->
         length full <= length curated ->
         sendMessage LOGIN FLASH handler isFunctionResponse maxAttempts
           initialDelayMs generateContent message chat
         = Some (Ok response,
                 {| config := config chat;
                    history := history chat ++ [userContent; c] |})).
Proof.
  intros Hu Hc Ha Hfirst Hnt Hrole.
  assert (Hsend : sendMessage LOGIN FLASH handler isFunctionResponse
                    maxAttempts initialDelayMs generateContent message chat
                  = (history' ←
                       recordHistory isFunctionResponse (history chat)
                         userContent [c]
                         (Some match automaticFunctionCallingHistory response
                               with
                               | Some full => drop (length curated) full
                               | None => []
                               end);
                     Some (Ok response,
                           {| config := config chat; history := history' |}))).
  { unfold sendMessage. rewrite Hu, Hc. cbn [mbind option_bind].
    unfold sendMessage_request, retryWithBackoff.
    rewrite (retry_success LOGIN shouldRetry _ _ _ _ _ _ _ _ response Ha).
    cbn [rr_result rr_config]. now rewrite Hfirst. }
  rewrite Hsend. split.
  - intros trace curatedTrace Hafc Hne Hcur. rewrite Hafc.
    rewrite drop_app_length.
    now rewrite (recordHistory_single_spliced isFunctionResponse
                   (history chat) _ c trace curatedTrace Hne Hcur Hnt Hrole).
  - intros full Hafc Hlen. rewrite Hafc, drop_ge by exact Hlen.
    now rewrite (recordHistory_single isFunctionResponse (history chat)
                   userContent c (Some []) eq_refl Hnt Hrole
                   (createUserContent_not_text message userContent Hu)).
Qed.

Lemma X24_sendMessage_splices_trace_witness :
  sendMessage "oauth-personal" "gemini-2.5-flash" None
    sample_isFunctionResponse 5 100
    (fun _ _ _ => Ok splicedResponse) [textPart "list the files"] sampleChat
  = Some (Ok splicedResponse,
          {| config := config sampleChat;
             history := history sampleChat ++ toolTrace ++ [modelTurn "done"] |}).
Proof.
  apply (proj1 (X24_sendMessage_splices_trace
                  "oauth-personal" "gemini-2.5-flash" None
                  sample_isFunctionResponse 5 100
                  (fun _ _ _ => Ok splicedResponse)
                  [textPart "list the files"] (userTurn "list the files")
                  sampleChat
                  [userTurn "q"; modelTurn "a"] splicedResponse
                  (modelTurn "done")
                  eq_refl eq_refl eq_refl eq_refl eq_refl eq_refl)
           toolTrace toolTrace);
    [reflexivity | discriminate | reflexivity].
Defined.
